(** * Key-binding store of the editor: change detection, listener
      dispatch and persistence ([src/lib/keyBindings/index.js]).

    The class [KeyBindings] is embedded as pure functions over an
    explicit store.  A JavaScript object whose property order is
    observable ([Object.keys], [Object.entries]) is an association list
    of its own properties in insertion order.  The binding maps are
    plain objects: [in] and property reads also see the members of
    [Object.prototype].  Callbacks are identified by a number and
    described by the registry calls ([on], [off]) they make while they
    run. *)

From Stdlib Require Import List String Ascii ZArith Bool Lia DecimalString.
Import ListNotations.
Local Open Scope string_scope.
Local Open Scope list_scope.

(** ** JavaScript values held by a binding map *)

#[warnings="-register-all"]
Inductive JsVal : Type :=
| JUndef
| JNull
| JBool (b : bool)
| JNum (n : Z)
| JStr (s : string)
| JObj (fields : list (string * JsVal)).

(** An object used as a mapping from binding name to descriptor. *)
Definition BindingMap := list (string * JsVal).

(** What a property read [o[k]] on a plain object yields: a value of
    the object (or [undefined]), or the member of [Object.prototype]
    of that name (a function; for [__proto__] the prototype object),
    which is truthy and never part of the data. *)
Inductive JsRead : Type :=
| Data (v : JsVal)
| Builtin (name : string).

Coercion Data : JsVal >-> JsRead.

Module Obj.

(** [Object.keys(o)] *)
Definition keys (o : BindingMap) : list string := map fst o.

(** own-property lookup *)
Fixpoint lookup (k : string) (o : BindingMap) : option JsVal :=
  match o with
  | [] => None
  | (k', v) :: o' => if String.eqb k k' then Some v else lookup k o'
  end.

(** the value of the own property [k], [undefined] without one *)
Definition get (k : string) (o : BindingMap) : JsVal :=
  match lookup k o with
  | Some v => v
  | None => JUndef
  end.

(** [o.hasOwnProperty(k)] *)
Definition has (k : string) (o : BindingMap) : bool :=
  match lookup k o with
  | Some _ => true
  | None => false
  end.

(** [o[k] = v]: an existing property keeps its place, a new one goes
    last. *)
Fixpoint set (k : string) (v : JsVal) (o : BindingMap) : BindingMap :=
  match o with
  | [] => [(k, v)]
  | (k', v') :: o' =>
      if String.eqb k k' then (k, v) :: o' else (k', v') :: set k v o'
  end.

(** [delete o[k]] *)
Fixpoint remove (k : string) (o : BindingMap) : BindingMap :=
  match o with
  | [] => []
  | (k', v') :: o' =>
      if String.eqb k k' then o' else (k', v') :: remove k o'
  end.

(** in-place change of the object stored under [k]: the property
    keeps its name and place *)
Definition modify (k : string) (f : JsVal -> JsVal) (o : BindingMap)
  : BindingMap :=
  map (fun kv => if String.eqb k (fst kv) then (fst kv, f (snd kv)) else kv) o.

(** the property names of [Object.prototype] *)
Definition inherited_names : list string :=
  ["constructor"; "__defineGetter__"; "__defineSetter__"; "hasOwnProperty";
   "__lookupGetter__"; "__lookupSetter__"; "isPrototypeOf";
   "propertyIsEnumerable"; "toString"; "valueOf"; "__proto__";
   "toLocaleString"].

Definition inherited (k : string) : bool :=
  existsb (String.eqb k) inherited_names.

(** [k in o]: own or inherited *)
Definition is_in (k : string) (o : BindingMap) : bool :=
  has k o || inherited k.

(** [o[k]] as an expression: the own value, else the inherited member,
    else [undefined] *)
Definition read (k : string) (o : BindingMap) : JsRead :=
  match lookup k o with
  | Some v => Data v
  | None => if inherited k then Builtin k else Data JUndef
  end.

(** [o[k] = v] as a statement.  Without an own property [__proto__]
    the assignment goes to the accessor of [Object.prototype] and makes
    no own property; it is a no-op for a primitive [v], and the
    replacement of the prototype that an object or null [v] causes is
    not represented. *)
Definition assign_member (k : string) (v : JsVal) (o : BindingMap)
  : BindingMap :=
  if has k o || negb (String.eqb k "__proto__") then set k v o else o.

End Obj.

(** [typeof v] *)
Definition typeof (v : JsVal) : string :=
  match v with
  | JUndef => "undefined"
  | JNull => "object"
  | JBool _ => "boolean"
  | JNum _ => "number"
  | JStr _ => "string"
  | JObj _ => "object"
  end.

(** [!v] is false: the value is truthy. *)
Definition truthy (r : JsRead) : bool :=
  match r with
  | Builtin _ => true
  | Data v =>
      match v with
      | JUndef | JNull => false
      | JBool b => b
      | JNum n => negb (Z.eqb n 0)
      | JStr s => negb (String.eqb s "")
      | JObj _ => true
      end
  end.

(** Equality of the representation, field by field and in order. *)
Fixpoint JsVal_eqb (a b : JsVal) : bool :=
  match a, b with
  | JUndef, JUndef => true
  | JNull, JNull => true
  | JBool x, JBool y => Bool.eqb x y
  | JNum x, JNum y => Z.eqb x y
  | JStr x, JStr y => String.eqb x y
  | JObj fa, JObj fb =>
      (fix fields_eqb (xs ys : list (string * JsVal)) {struct xs} : bool :=
         match xs, ys with
         | [], [] => true
         | (k, v) :: xs', (k', v') :: ys' =>
             String.eqb k k' && JsVal_eqb v v' && fields_eqb xs' ys'
         | _, _ => false
         end) fa fb
  | _, _ => false
  end.

(** Induction on values that reaches the fields of an object. *)
Section JsVal_induction.

Variable P : JsVal -> Prop.
Hypothesis HUndef : P JUndef.
Hypothesis HNull : P JNull.
Hypothesis HBool : forall b, P (JBool b).
Hypothesis HNum : forall n, P (JNum n).
Hypothesis HStr : forall s, P (JStr s).
Hypothesis HObj :
  forall fs, Forall (fun kv => P (snd kv)) fs -> P (JObj fs).

Fixpoint JsVal_nested_ind (v : JsVal) : P v :=
  match v with
  | JUndef => HUndef
  | JNull => HNull
  | JBool b => HBool b
  | JNum n => HNum n
  | JStr s => HStr s
  | JObj fs =>
      HObj fs
        ((fix all (xs : list (string * JsVal))
            : Forall (fun kv => P (snd kv)) xs :=
            match xs with
            | [] => Forall_nil _
            | kv :: xs' => Forall_cons kv (JsVal_nested_ind (snd kv)) (all xs')
            end) fs)
  end.

End JsVal_induction.

(** [a === b] where [a] is a primitive (the only use in the source):
    equal exactly when [b] is the same primitive.  Two objects are
    never identical here: the baseline is always a deep copy. *)
Definition strict_eq (a : JsVal) (b : JsRead) : bool :=
  match b with
  | Builtin _ => false
  | Data c =>
      match a, c with
      | JObj _, _ | _, JObj _ => false
      | _, _ => JsVal_eqb a c
      end
  end.

(** Structural equality of two values: the same primitive, or two
    objects with the same property names and, under each name,
    structurally equal values, in whatever order the properties come. *)
Definition fields_match (eq : JsVal -> JsVal -> bool) (fb : BindingMap)
  : BindingMap -> bool :=
  fix each (xs : BindingMap) : bool :=
    match xs with
    | [] => true
    | (k, v) :: xs' =>
        match Obj.lookup k fb with
        | Some w => eq v w
        | None => false
        end
        && each xs'
    end.

Fixpoint structurally_equal (a b : JsVal) : bool :=
  JsVal_eqb a b
  || match a, b with
     | JObj fa, JObj fb =>
         forallb (fun k => Obj.has k fa) (Obj.keys fb)
         && fields_match structurally_equal fb fa
     | _, _ => false
     end.

(** Modelled from the spec: [helpers.areEqual] is not part of the
    sources at hand; the spec describes it as structural (deep)
    equality of object-shaped values.  A member of [Object.prototype]
    is equal to no value of the data. *)
Definition areEqual (a : JsVal) (b : JsRead) : bool :=
  match b with
  | Builtin _ => false
  | Data c => structurally_equal a c
  end.

(** [structuredClone(v)]: a deep copy; values carry no identity, so the
    copy is the value itself. *)
Definition structuredClone {A : Type} (v : A) : A := v.

(** ** Change detection *)

(** The callback of the [forEach] in [#getChangedKeys]: is [key]
    reported, given its baseline value and the current mapping? *)
Definition key_changed (cur : BindingMap) (key : string) (value : JsVal) : bool :=
  if String.eqb (typeof value) "object"
  then negb (areEqual value (Obj.read key cur))
  else negb (strict_eq value (Obj.read key cur)).

(** [#getChangedKeys()], as a function of [#oldKeyBindings] and [value]. *)
Definition getChangedKeys (old : option BindingMap) (cur : BindingMap)
  : list string :=
  match old with
  | None => []
  | Some o =>
      fold_left
        (fun keys key =>
           if key_changed cur key (Obj.get key o) then keys ++ [key] else keys)
        (Obj.keys o) []
  end.

(** ** Listener registry *)

(** A callback function, identified by a number (function identity is
    what [indexOf] in [off] compares). *)
Definition Listener := nat.

(** The private field [#on]: event name to the callbacks registered for
    it, in registration order. *)
Definition Registry := list (string * list Listener).

Module Reg.

Fixpoint lookup (ev : string) (r : Registry) : option (list Listener) :=
  match r with
  | [] => None
  | (ev', ls) :: r' => if String.eqb ev ev' then Some ls else lookup ev r'
  end.

Fixpoint set (ev : string) (ls : list Listener) (r : Registry) : Registry :=
  match r with
  | [] => [(ev, ls)]
  | (ev', ls') :: r' =>
      if String.eqb ev ev' then (ev, ls) :: r' else (ev', ls') :: set ev ls r'
  end.

(** the list for [ev] after [if (!this.#on[event]) this.#on[event] = []] *)
Definition list_of (ev : string) (r : Registry) : list Listener :=
  match lookup ev r with
  | Some ls => ls
  | None => []
  end.

(** [splice(indexOf(cb), 1)]: drop the first occurrence, if any *)
Fixpoint remove_first (cb : Listener) (ls : list Listener) : list Listener :=
  match ls with
  | [] => []
  | x :: ls' => if Nat.eqb x cb then ls' else x :: remove_first cb ls'
  end.

(** the initial value of [#on] *)
Definition initial : Registry :=
  [("update", []); ("update:after", []); ("reset", [])].

End Reg.

(** [on(event, callback)] on the registry *)
Definition reg_on (ev : string) (cb : Listener) (r : Registry) : Registry :=
  Reg.set ev (Reg.list_of ev r ++ [cb]) r.

(** [off(event, callback)] on the registry *)
Definition reg_off (ev : string) (cb : Listener) (r : Registry) : Registry :=
  Reg.set ev (Reg.remove_first cb (Reg.list_of ev r)) r.

(** What a callback does to the store while it runs: calls of [on] and
    [off].  Callbacks here return normally. *)
Inductive Action : Type :=
| ActOn (ev : string) (cb : Listener)
| ActOff (ev : string) (cb : Listener).

Definition run_action (r : Registry) (a : Action) : Registry :=
  match a with
  | ActOn ev cb => reg_on ev cb r
  | ActOff ev cb => reg_off ev cb r
  end.

(** The body of every callback: the registry calls it makes, given its
    identity and the argument it is called with. *)
Definition Behaviour := Listener -> JsRead -> list Action.

(** ** The store and its collaborators *)

(** What the outside world sees, in order. *)
Inductive Event : Type :=
| EvUpdate (key : string) (cb : Listener) (arg : JsRead)
    (* a callback run by the first dispatch loop of [update], for [key] *)
| EvUpdateAfter (key : string) (cb : Listener) (arg : JsRead)
    (* a callback run by the second dispatch loop of [update], for [key] *)
| EvReset (cb : Listener) (arg : JsRead)
| EvAddCommand (cmd : JsVal)
| EvCreateFile
| EvWriteFile (doc : JsVal)
| EvToast.

Record Store : Type := mkStore {
  initialized : bool;                     (* #initialized *)
  on_ : Registry;                         (* #on *)
  defaultKeyBindings : BindingMap;        (* #defaultKeyBindings *)
  value : BindingMap;                     (* value *)
  oldKeyBindings : option BindingMap;     (* #oldKeyBindings *)
  editor : option BindingMap;             (* #editor: commands.byName *)
  shared : list string;
    (* keys whose descriptor in [value] is the very object held by
       [#defaultKeyBindings] (after [value[key] = defaults[key]]) *)
  file : option JsVal;
    (* KEYBINDING_FILE: absent, or the document [readFile("json")]
       yields (null when the text is empty or does not parse) *)
  log : list Event
}.

Definition with_on (r : Registry) (s : Store) : Store :=
  mkStore (initialized s) r (defaultKeyBindings s) (value s)
          (oldKeyBindings s) (editor s) (shared s) (file s) (log s).

Definition with_value (v : BindingMap) (sh : list string) (s : Store) : Store :=
  mkStore (initialized s) (on_ s) (defaultKeyBindings s) v
          (oldKeyBindings s) (editor s) sh (file s) (log s).

Definition with_defaults (d : BindingMap) (s : Store) : Store :=
  mkStore (initialized s) (on_ s) d (value s)
          (oldKeyBindings s) (editor s) (shared s) (file s) (log s).

Definition with_old (o : option BindingMap) (s : Store) : Store :=
  mkStore (initialized s) (on_ s) (defaultKeyBindings s) (value s)
          o (editor s) (shared s) (file s) (log s).

Definition with_file (f : option JsVal) (s : Store) : Store :=
  mkStore (initialized s) (on_ s) (defaultKeyBindings s) (value s)
          (oldKeyBindings s) (editor s) (shared s) f (log s).

Definition emit (e : Event) (s : Store) : Store :=
  mkStore (initialized s) (on_ s) (defaultKeyBindings s) (value s)
          (oldKeyBindings s) (editor s) (shared s) (file s) (log s ++ [e]).

(** The store right after construction, for a given list of defaults
    ([KeyBindingsList]) and a given state of the storage. *)
Definition new_store (list_js : BindingMap) (f : option JsVal) : Store :=
  mkStore false Reg.initial (structuredClone list_js)
          (structuredClone (structuredClone list_js)) None None [] f [].

(** [on(event, callback)] and [off(event, callback)] *)
Definition on (ev : string) (cb : Listener) (s : Store) : Store :=
  with_on (reg_on ev cb (on_ s)) s.

Definition off (ev : string) (cb : Listener) (s : Store) : Store :=
  with_on (reg_off ev cb (on_ s)) s.

(** [get(key)] and [has(key)] *)
Definition get (key : string) (s : Store) : JsRead := Obj.read key (value s).
Definition has (key : string) (s : Store) : bool := Obj.is_in key (value s).

(** Calling [listener(arg)]: the call is recorded as [e], then the
    callback's registry calls take effect. *)
Definition call (beh : Behaviour) (e : Event) (cb : Listener) (arg : JsRead)
                (s : Store) : Store :=
  let s1 := emit e s in
  with_on (fold_left run_action (beh cb arg) (on_ s1)) s1.

(** ** Editor command synchronisation *)

Inductive Outcome : Type := Ok | Threw.

(** the characters of a string as index-named properties *)
Fixpoint string_props (i : nat) (s : string) : list (string * JsVal) :=
  match s with
  | EmptyString => []
  | String c s' =>
      (NilEmpty.string_of_uint (Nat.to_uint i), JStr (String c EmptyString))
        :: string_props (S i) s'
  end.

(** own enumerable properties, as [Object.assign] reads them *)
Definition own_props (r : JsRead) : list (string * JsVal) :=
  match r with
  | Data (JObj fs) => fs
  | Data (JStr s) => string_props 0 s
  | _ => []
  end.

(** [Object.assign(target, src)] *)
Definition assign (target : BindingMap) (src : JsRead) : BindingMap :=
  fold_left (fun t kv => Obj.set (fst kv) (snd kv) t) (own_props src) target.

(** [shortcut?.key] for a truthy [shortcut] *)
Definition shortcut_key (shortcut : JsRead) : JsVal :=
  match shortcut with
  | Data (JObj fs) => Obj.get "key" fs
  | _ => JUndef
  end.

(** [shortcut.bindKey = { win: shortcut.key }; delete shortcut.key] *)
Definition normalize (shortcut : JsVal) : JsVal :=
  match shortcut with
  | JObj fs =>
      JObj (Obj.remove "key"
              (Obj.set "bindKey" (JObj [("win", Obj.get "key" fs)]) fs))
  | _ => shortcut
  end.

Definition is_shared (key : string) (s : Store) : bool :=
  existsb (String.eqb key) (shared s).

(** The body of the [forEach] in [applyBindings].  Modelled from the
    spec: [commands.addCommand] belongs to the editor, which is not part
    of the sources at hand; it registers the record it is given, which
    is recorded in the log. *)
Definition apply_key (byName : BindingMap) (s : Store) (key : string) : Store :=
  let shortcut := Obj.read key (value s) in
  let command := Obj.read key byName in
  if negb (truthy command) || negb (truthy shortcut) then s
  else
    let s1 :=
      if truthy (shortcut_key shortcut)
      then
        let s' := with_value (Obj.modify key normalize (value s)) (shared s) s in
        if is_shared key s
        then with_defaults (Obj.modify key normalize (defaultKeyBindings s')) s'
        else s'
      else s in
    let newCmd := assign (assign [] command) (Obj.read key (value s1)) in
    emit (EvAddCommand (JObj newCmd)) s1.

(** [applyBindings(...keys)]; destructuring [this.#editor] throws while
    no editor is recorded. *)
Definition applyBindings (keys : list string) (s : Store) : Outcome * Store :=
  match editor s with
  | None => (Threw, s)
  | Some byName => (Ok, fold_left (apply_key byName) keys s)
  end.

(** ** Persistence *)

(** The document that the text [JSON.stringify(v, undefined, 4)] parses
    to: properties whose value is [undefined] are left out. *)
Fixpoint json (v : JsVal) : JsVal :=
  match v with
  | JObj fs =>
      JObj ((fix strip (xs : list (string * JsVal)) : list (string * JsVal) :=
               match xs with
               | [] => []
               | (k, x) :: xs' =>
                   match x with
                   | JUndef => strip xs'
                   | _ => (k, json x) :: strip xs'
                   end
               end) fs)
  | _ => v
  end.

(** [#save()] *)
Definition save (s : Store) : Store :=
  let keyBindingsText := json (JObj (value s)) in
  let s1 := match file s with
            | None => emit EvCreateFile s
            | Some _ => s
            end in
  let s2 := emit (EvWriteFile keyBindingsText) (with_file (Some keyBindingsText) s1) in
  with_old (Some (structuredClone (value s2))) s2.

(** ** Update *)

(** The two dispatch loops of [update]. *)
Inductive Phase : Type := Before | After.

(** [`update:${key}`] and [`update:${key}:after`] *)
Definition event_name (ph : Phase) (key : string) : string :=
  match ph with
  | Before => String.append "update:" key
  | After => String.append (String.append "update:" key) ":after"
  end.

Definition phase_event (ph : Phase) : string -> Listener -> JsRead -> Event :=
  match ph with
  | Before => EvUpdate
  | After => EvUpdateAfter
  end.

(** [listeners.forEach(listener => listener(this.value[key]))] over a
    local array *)
Definition invoke_all (beh : Behaviour) (ph : Phase) (key : string)
                      (ls : list Listener) (s : Store) : Store :=
  fold_left
    (fun st cb =>
       call beh (phase_event ph key cb (Obj.read key (value st)))
            cb (Obj.read key (value st)) st)
    ls s.

(** [changedKeyBindings.forEach(key => ...)]: [acc] is the local array
    ([onupdate] or [onupdateAfter]) that the loop body pushes onto. *)
Fixpoint dispatch (beh : Behaviour) (ph : Phase) (keys : list string)
                  (acc : list Listener) (s : Store) : Store :=
  match keys with
  | [] => s
  | key :: rest =>
      let acc' := match Reg.lookup (event_name ph key) (on_ s) with
                  | Some listeners => acc ++ listeners
                  | None => acc
                  end in
      dispatch beh ph rest acc' (invoke_all beh ph key acc' s)
  end.

(** First argument of [update]: nothing, a boolean, or an object. *)
Inductive Patch : Type :=
| NoPatch
| Flag (b : bool)
| Fields (m : BindingMap).

(** [Object.keys(keyBindings).forEach(key => { if (key in this.value)
    this.value[key] = keyBindings[key]; })] *)
Definition apply_patch (keyBindings : BindingMap) (s : Store) : Store :=
  fold_left
    (fun st key =>
       if Obj.is_in key (value st)
       then with_value
              (Obj.assign_member key (Obj.get key keyBindings) (value st))
              (filter (fun k => negb (String.eqb key k)) (shared st)) st
       else st)
    (Obj.keys keyBindings) s.

(** [update(keyBindings, showToast, saveFile)] *)
Definition update (beh : Behaviour) (keyBindings : Patch)
                  (showToast saveFile : bool) (s : Store) : Outcome * Store :=
  let showToast := match keyBindings with Flag b => b | _ => showToast end in
  let onupdate := Reg.list_of "update" (on_ s) in
  let onupdateAfter := Reg.list_of "update:after" (on_ s) in
  let s1 := match keyBindings with
            | Fields m => apply_patch m s
            | _ => s
            end in
  let changedKeyBindings := getChangedKeys (oldKeyBindings s1) (value s1) in
  let s2 := dispatch beh Before changedKeyBindings onupdate s1 in
  match applyBindings changedKeyBindings s2 with
  | (Threw, s3) => (Threw, s3)
  | (Ok, s3) =>
      let s4 := if saveFile then save s3 else s3 in
      let s5 := if showToast then emit EvToast s4 else s4 in
      (Ok, dispatch beh After changedKeyBindings onupdateAfter s5)
  end.

(** ** Reset *)

(** [this.#on.reset.forEach(onreset => onreset(this.value))]: the array
    is the registry's own, so the loop sees what callbacks do to it;
    [n] indices remain to be visited, starting at [i]. *)
Fixpoint fire_reset (beh : Behaviour) (n i : nat) (s : Store) : Store :=
  match n with
  | O => s
  | S n' =>
      match nth_error (Reg.list_of "reset" (on_ s)) i with
      | Some cb =>
          fire_reset beh n' (S i)
            (call beh (EvReset cb (JObj (value s))) cb (JObj (value s)) s)
      | None => fire_reset beh n' (S i) s
      end
  end.

(** the [forEach] of the second branch of [reset] *)
Definition reset_keys (keyBindings : list string) (s : Store) : Store :=
  fold_left
    (fun st key =>
       if negb (Obj.has key (defaultKeyBindings st)) then st
       else with_value
              (Obj.set key (Obj.get key (defaultKeyBindings st)) (value st))
              (key :: shared st) st)
    keyBindings s.

(** The store after [this.value = structuredClone(defaults)], the
    first statement of [reset()]. *)
Definition value_reset (s : Store) : Store :=
  with_value (structuredClone (defaultKeyBindings s)) [] s.

(** [reset(...keyBindings)] *)
Definition reset (beh : Behaviour) (keyBindings : list string) (s : Store)
  : Outcome * Store :=
  let s1 := match keyBindings with
            | [] => value_reset s
            | _ => reset_keys keyBindings s
            end in
  match update beh (Flag false) true true s1 with
  | (Threw, s2) => (Threw, s2)
  | (Ok, s2) =>
      (Ok, fire_reset beh (List.length (Reg.list_of "reset" (on_ s2))) 0 s2)
  end.

(** ** Initialisation *)

(** [keyBindings[key] = v] on the document read from storage; the
    module is strict code, so the assignment throws on a primitive. *)
Definition assign_prop (doc : JsVal) (key : string) (v : JsVal) : option JsVal :=
  match doc with
  | JObj fs => Some (JObj (Obj.set key v fs))
  | _ => None
  end.

(** The callback of the loop over
    [Object.entries(this.#defaultKeyBindings)] in [init]; [value] is
    the entry's value, as in the source.  [None]: the assignment
    threw. *)
Definition heal_entry (defaults : BindingMap) (doc : option JsVal)
                      (entry : string * JsVal) : option JsVal :=
  match doc with
  | None => None
  | Some keyBindings =>
      let key := fst entry in
      let value := snd entry in
      if JsVal_eqb value JUndef
         || negb (String.eqb (typeof value) (typeof (Obj.get key defaults)))
      then assign_prop keyBindings key (Obj.get key defaults)
      else Some keyBindings
  end.

Definition heal (defaults : BindingMap) (keyBindings : JsVal) : option JsVal :=
  fold_left (heal_entry defaults) defaults (Some keyBindings).

Definition with_editor (ed : BindingMap) (s : Store) : Store :=
  mkStore true (on_ s) (defaultKeyBindings s) (value s)
          (oldKeyBindings s) (Some ed) (shared s) (file s) (log s).

(** [init(editor)]; the editor is given by its table [commands.byName]. *)
Definition init (beh : Behaviour) (ed : BindingMap) (s : Store)
  : Outcome * Store :=
  if initialized s then (Ok, s)
  else
    let s0 := with_editor ed s in
    match file s0 with
    | None =>
        let s1 := save s0 in
        let s2 := with_value (structuredClone (defaultKeyBindings s1)) [] s1 in
        (Ok, with_old (Some (structuredClone (defaultKeyBindings s2))) s2)
    | Some keyBindings =>
        if negb (truthy keyBindings) then (Ok, s0)
        else
          match heal (defaultKeyBindings s0) keyBindings with
          | None => (Threw, s0)
          | Some _ => reset beh [] s0
          end
    end.

(** ** Vocabulary of the statements *)

(** [current] and [defaults] have the same keys, in the same order. *)
Definition same_keys (s : Store) : Prop :=
  Obj.keys (value s) = Obj.keys (defaultKeyBindings s).

(** The first step of [update]: the store once the patch is applied. *)
Definition patched (keyBindings : Patch) (s : Store) : Store :=
  match keyBindings with
  | Fields m => apply_patch m s
  | _ => s
  end.

(** [changedKeyBindings] as [update] computes it for this call. *)
Definition changed_by (keyBindings : Patch) (s : Store) : list string :=
  getChangedKeys (oldKeyBindings (patched keyBindings s))
                 (value (patched keyBindings s)).

(** Two stores that differ at most in the registry and the log. *)
Definition same_data (s s' : Store) : Prop :=
  initialized s' = initialized s
  /\ defaultKeyBindings s' = defaultKeyBindings s
  /\ value s' = value s
  /\ oldKeyBindings s' = oldKeyBindings s
  /\ editor s' = editor s
  /\ shared s' = shared s
  /\ file s' = file s.

(** The calls that one dispatch loop of [update] makes for [key] when
    its local array holds [ls]. *)
Definition calls_for (ph : Phase) (v : BindingMap) (key : string)
                     (ls : list Listener) : list Event :=
  map (fun cb => phase_event ph key cb (Obj.read key v)) ls.

(** The calls of one whole dispatch loop: for each changed key in
    turn, the calls for the array that the loop held for that key. *)
Definition flat_calls (ph : Phase) (v : BindingMap) (keys : list string)
                      (blocks : list (list Listener)) : list Event :=
  List.concat
    (map (fun kb => calls_for ph v (fst kb) (snd kb)) (combine keys blocks)).


(** Events of [applyBindings] and of the file creation in [#save]. *)
Definition is_sync_event (e : Event) : bool :=
  match e with
  | EvAddCommand _ | EvCreateFile => true
  | _ => false
  end.

(** [showToast] after the overload on a boolean first argument. *)
Definition toast_flag (p : Patch) (showToast : bool) : bool :=
  match p with
  | Flag b => b
  | _ => showToast
  end.

(** The two events whose lists [update] copies when it starts. *)
Definition is_generic (ev : string) : bool :=
  String.eqb ev "update" || String.eqb ev "update:after".

Definition action_event (a : Action) : string :=
  match a with
  | ActOn ev _ => ev
  | ActOff ev _ => ev
  end.

(** The same callbacks, without their [on] and [off] calls on the two
    generic events. *)
Definition without_generic (beh : Behaviour) : Behaviour :=
  fun cb arg =>
    filter (fun a => negb (is_generic (action_event a))) (beh cb arg).

(** Two registries that hold the same list for every event other than
    the two generic ones. *)
Definition agree_specific (r r' : Registry) : Prop :=
  forall ev, is_generic ev = false -> Reg.lookup ev r' = Reg.lookup ev r.

(** Two stores that are the same but for the registry, and whose
    registries agree on every event other than the two generic ones. *)
Definition same_but_generic (s s' : Store) : Prop :=
  exists r', s' = with_on r' s /\ agree_specific (on_ s) r'.

(** A callback that makes no registry call. *)
Definition quiet : Behaviour := fun _ _ => [].

(** The stores a program can reach from construction through the
    public operations, for given defaults and callbacks. *)
Inductive reachable (beh : Behaviour) (list_js : BindingMap) : Store -> Prop :=
| reach_new (f : option JsVal) : reachable beh list_js (new_store list_js f)
| reach_init (ed : BindingMap) (s : Store) :
    reachable beh list_js s -> reachable beh list_js (snd (init beh ed s))
| reach_update (p : Patch) (showToast saveFile : bool) (s : Store) :
    reachable beh list_js s ->
    reachable beh list_js (snd (update beh p showToast saveFile s))
| reach_reset (keys : list string) (s : Store) :
    reachable beh list_js s -> reachable beh list_js (snd (reset beh keys s))
| reach_on (ev : string) (cb : Listener) (s : Store) :
    reachable beh list_js s -> reachable beh list_js (on ev cb s)
| reach_off (ev : string) (cb : Listener) (s : Store) :
    reachable beh list_js s -> reachable beh list_js (off ev cb s).

(** ** Values as JavaScript has them *)

(** Every object of the value, at any depth, has distinct property
    names. *)
Fixpoint well_formed (v : JsVal) : Prop :=
  match v with
  | JObj fs =>
      NoDup (Obj.keys fs)
      /\ (fix all (xs : BindingMap) : Prop :=
            match xs with
            | [] => True
            | (_, x) :: xs' => well_formed x /\ all xs'
            end) fs
  | _ => True
  end.

(** Two values are the same: the same primitive, or two objects that
    have the same properties, under each name the same value. *)
Inductive same_value : JsVal -> JsVal -> Prop :=
| same_undef : same_value JUndef JUndef
| same_null : same_value JNull JNull
| same_bool b : same_value (JBool b) (JBool b)
| same_num n : same_value (JNum n) (JNum n)
| same_str s : same_value (JStr s) (JStr s)
| same_obj fa fb :
    (forall k, same_member (Obj.lookup k fa) (Obj.lookup k fb)) ->
    same_value (JObj fa) (JObj fb)
with same_member : option JsVal -> option JsVal -> Prop :=
| same_absent : same_member None None
| same_present v w : same_value v w -> same_member (Some v) (Some w).

(** A value of the baseline is the same as what a read of the current
    mapping yields; a member of [Object.prototype] is no value. *)
Definition same_read (v : JsVal) (r : JsRead) : Prop :=
  match r with
  | Data c => same_value v c
  | Builtin _ => False
  end.

(** ** Sample stores *)

(** A store with the single default a = 1, initialised on empty
    storage with an editor that has no command. *)
Definition store_a : Store :=
  snd (init quiet [] (new_store [("a", JNum 1)] None)).

(** [store_a] after [update({a: 2}, true, false)]: the change is not
    persisted, so the baseline still holds a = 1. *)
Definition store_a_pending : Store :=
  snd (update quiet (Fields [("a", JNum 2)]) true false store_a).

(** [store_a] after [update({a: 2})] with the default flags: a = 2 is
    written to storage. *)
Definition store_a_saved : Store :=
  snd (update quiet (Fields [("a", JNum 2)]) true true store_a).

(** A new store over the storage that [store_a_saved] left behind. *)
Definition store_a_restart : Store :=
  new_store [("a", JNum 1)] (file store_a_saved).

(** Defaults a = 1, c = 1, initialised on empty storage; callback 1 is
    registered for [update], callback 2 for [update:a]. *)
Definition store_ac : Store :=
  on "update:a" 2
     (on "update" 1
         (snd (init quiet [] (new_store [("a", JNum 1); ("c", JNum 1)] None)))).


(** [applyBindings] finds nothing to rewrite in the defaults: no
    default descriptor that has a command of its name carries a truthy
    [key] field. *)
Definition nothing_to_normalize (byName defaults : BindingMap) : Prop :=
  forall key,
    truthy (Obj.read key byName)
    && truthy (shortcut_key (Obj.read key defaults)) = false.

(** The defaults save = {key: "Ctrl-S"} and a = 1 and an editor with a
    command named save, initialised on empty storage; callback 1 is
    registered for [reset]; then [update({a: 2})] is persisted. *)
Definition store_save_a : Store :=
  snd (update quiet (Fields [("a", JNum 2)]) true true
         (on "reset" 1
            (snd (init quiet [("save", JObj [("name", JStr "save")])]
                       (new_store [("save", JObj [("key", JStr "Ctrl-S")]);
                                   ("a", JNum 1)] None))))).

(** The default save = {key: "Ctrl-S"}, an editor with a command named
    save, initialised on empty storage, then [update] to Ctrl-X. *)
Definition store_save : Store :=
  snd (update quiet (Fields [("save", JObj [("key", JStr "Ctrl-X")])]) true true
         (snd (init quiet [("save", JObj [("name", JStr "save")])]
                    (new_store [("save", JObj [("key", JStr "Ctrl-S")])] None)))).

(** Callback 1, whenever it runs, registers 3 for [update:c], 4 for
    [update], 5 for [update:after] and 6 for [update:c:after]; the
    other callbacks register nothing. *)
Definition registering : Behaviour :=
  fun cb _ =>
    if Nat.eqb cb 1
    then [ActOn "update:c" 3; ActOn "update" 4;
          ActOn "update:after" 5; ActOn "update:c:after" 6]
    else [].

(** Defaults a = 1, after = 1, initialised on empty storage; callback
    1 is registered for [update]. *)
Definition store_after : Store :=
  on "update" 1
     (snd (init quiet []
                (new_store [("a", JNum 1); ("after", JNum 1)] None))).

(** Callback 1, whenever it runs, registers 5 for [update:after]. *)
Definition registering_after : Behaviour :=
  fun cb _ => if Nat.eqb cb 1 then [ActOn "update:after" 5] else [].

(** ** Well-formed objects *)

(** No two properties of the object have the same name. *)
Definition unique_keys (o : BindingMap) : Prop := NoDup (Obj.keys o).

(** No property of the object holds [undefined]. *)
Definition no_undefined (o : BindingMap) : Prop :=
  Forall (fun kv => snd kv <> JUndef) o.

(** ** Callbacks and the registry *)

(** No callback ever calls [off] for the event [ev]. *)
Definition never_off (ev : string) (beh : Behaviour) : Prop :=
  forall cb arg cb', ~ In (ActOff ev cb') (beh cb arg).

(** The calls of the [reset] callbacks [ls] with the full mapping. *)
Definition reset_calls (v : BindingMap) (ls : list Listener) : list Event :=
  map (fun cb => EvReset cb (JObj v)) ls.

(** Calls made by the first dispatch loop of [update]. *)
Definition is_update_call (e : Event) : bool :=
  match e with
  | EvUpdate _ _ _ => true
  | _ => false
  end.

(** Every descriptor of the mapping that is an object is well formed. *)
Definition well_formed_descriptors (v : BindingMap) : Prop :=
  forall k fs, Obj.get k v = JObj fs -> unique_keys fs.

(** [applyBindings] would not rewrite the descriptor of [k]: there is
    no command of that name, or no descriptor, or no [key] in it. *)
Definition settled (byName v : BindingMap) (k : string) : Prop :=
  truthy (Obj.read k byName) && truthy (Obj.read k v)
  && truthy (shortcut_key (Obj.read k v)) = false.

(** No property, at any depth, holds [undefined]. *)
Fixpoint no_undefined_fields (v : JsVal) : bool :=
  match v with
  | JObj fs =>
      (fix all (xs : list (string * JsVal)) : bool :=
         match xs with
         | [] => true
         | (_, x) :: xs' =>
             match x with
             | JUndef => false
             | _ => no_undefined_fields x && all xs'
             end
         end) fs
  | _ => true
  end.

(** No callback makes a registry call. *)
Definition all_quiet (beh : Behaviour) : Prop :=
  forall cb arg, beh cb arg = [].

(** * Properties *)

(** ** Values and objects *)

Lemma JsVal_eqb_refl (a : JsVal) : JsVal_eqb a a = true.
Proof.
  induction a using JsVal_nested_ind; simpl; auto.
  - apply Bool.eqb_reflx.
  - apply Z.eqb_refl.
  - apply String.eqb_refl.
  - induction H as [|[k v] xs Hv _ IH]; [reflexivity|].
    simpl in Hv. rewrite String.eqb_refl, Hv, IH. reflexivity.
Qed.

Lemma JsVal_eqb_true (a : JsVal) : forall b, JsVal_eqb a b = true -> a = b.
Proof.
  induction a using JsVal_nested_ind; intros [] E; simpl in E;
    try discriminate; auto.
  - apply Bool.eqb_prop in E. now subst.
  - apply Z.eqb_eq in E. now subst.
  - apply String.eqb_eq in E. now subst.
  - f_equal. revert fields E.
    induction H as [|[k v] xs Hv _ IH]; intros [|[k' v'] ys] E;
      try discriminate; auto.
    apply andb_true_iff in E. destruct E as [E E3].
    apply andb_true_iff in E. destruct E as [E1 E2].
    apply String.eqb_eq in E1. apply Hv in E2. simpl in E2.
    f_equal; [now subst | now apply IH].
Qed.

Lemma JsVal_eqb_eq (a b : JsVal) : JsVal_eqb a b = true <-> a = b.
Proof.
  split; [apply JsVal_eqb_true | intros ->; apply JsVal_eqb_refl].
Qed.

Lemma JsVal_eqb_neq (a b : JsVal) : JsVal_eqb a b = false <-> a <> b.
Proof.
  rewrite <- JsVal_eqb_eq. destruct (JsVal_eqb a b); split; congruence.
Qed.

(** ** Objects as ordered maps *)

Lemma has_lookup (k : string) (o : BindingMap) :
  Obj.has k o = true <-> exists v, Obj.lookup k o = Some v.
Proof.
  unfold Obj.has. destruct (Obj.lookup k o) as [v|]; split.
  - now exists v.
  - reflexivity.
  - discriminate.
  - now intros [v Hv].
Qed.

Lemma has_In_keys (k : string) (o : BindingMap) :
  Obj.has k o = true <-> In k (Obj.keys o).
Proof.
  unfold Obj.has. induction o as [|[k' v] o IH]; simpl.
  - split; [discriminate | tauto].
  - destruct (String.eqb_spec k k') as [->|Hne].
    + split; auto.
    + rewrite IH. split; [auto | intros [E|H]; [congruence | exact H]].
Qed.

Lemma lookup_In (k : string) (v : JsVal) (o : BindingMap) :
  Obj.lookup k o = Some v -> In (k, v) o.
Proof.
  induction o as [|[k0 v0] o IH]; simpl; [discriminate|].
  destruct (String.eqb_spec k k0) as [->|Hne].
  - intros E. inversion E. now left.
  - intros E. right. now apply IH.
Qed.

Lemma lookup_absent (k : string) (o : BindingMap) :
  ~ In k (Obj.keys o) -> Obj.lookup k o = None.
Proof.
  intros H. destruct (Obj.lookup k o) as [v|] eqn:E; [|reflexivity].
  exfalso. apply H. apply has_In_keys. apply has_lookup. now exists v.
Qed.

Lemma In_lookup (k : string) (v : JsVal) (o : BindingMap) :
  NoDup (Obj.keys o) -> In (k, v) o -> Obj.lookup k o = Some v.
Proof.
  induction o as [|[k0 v0] o IH]; intros Hnd Hin; [contradiction|].
  simpl in *. inversion Hnd as [|? ? Hnin Hnd']; subst.
  destruct Hin as [E|Hin].
  - inversion E; subst. now rewrite String.eqb_refl.
  - destruct (String.eqb_spec k k0) as [->|Hne]; [|now apply IH].
    exfalso. apply Hnin. change k0 with (fst (k0, v)). now apply in_map.
Qed.

Lemma read_own (k : string) (o : BindingMap) :
  Obj.has k o = true -> Obj.read k o = Data (Obj.get k o).
Proof.
  unfold Obj.has, Obj.read, Obj.get.
  now destruct (Obj.lookup k o).
Qed.

Lemma read_plain (k : string) (o : BindingMap) :
  Obj.inherited k = false -> Obj.read k o = Data (Obj.get k o).
Proof.
  unfold Obj.read, Obj.get. intros ->. now destruct (Obj.lookup k o).
Qed.

(** ** Structural equality *)

Lemma structurally_equal_unfold (a b : JsVal) :
  structurally_equal a b
  = JsVal_eqb a b
    || match a, b with
       | JObj fa, JObj fb =>
           forallb (fun k => Obj.has k fa) (Obj.keys fb)
           && fields_match structurally_equal fb fa
       | _, _ => false
       end.
Proof. destruct a; reflexivity. Qed.

Lemma structurally_equal_refl (a : JsVal) : structurally_equal a a = true.
Proof. now rewrite structurally_equal_unfold, JsVal_eqb_refl. Qed.

Lemma well_formed_field (fs : BindingMap) (k : string) (v : JsVal) :
  well_formed (JObj fs) -> In (k, v) fs -> well_formed v.
Proof.
  intros [_ H]. induction fs as [|[k0 v0] fs IH]; intros Hin; [contradiction|].
  destruct H as [H0 H]. destruct Hin as [E|Hin].
  - now inversion E; subst.
  - now apply IH.
Qed.

Lemma well_formed_get (fs : BindingMap) (k : string) :
  well_formed (JObj fs) -> well_formed (Obj.get k fs).
Proof.
  intros H. unfold Obj.get. destruct (Obj.lookup k fs) as [v|] eqn:E;
    [|exact I].
  apply (well_formed_field fs k v H). now apply lookup_In.
Qed.

Lemma same_value_refl (a : JsVal) : same_value a a.
Proof.
  induction a using JsVal_nested_ind; try constructor.
  intros k. destruct (Obj.lookup k fs) as [v|] eqn:E; constructor.
  apply lookup_In in E. rewrite Forall_forall in H. exact (H (k, v) E).
Qed.

Lemma fields_match_spec (eq : JsVal -> JsVal -> bool) (fb xs : BindingMap) :
  fields_match eq fb xs = true
  <-> forall k v, In (k, v) xs ->
                  exists w, Obj.lookup k fb = Some w /\ eq v w = true.
Proof.
  induction xs as [|[k0 v0] xs IH]; simpl.
  - split; [intros _ k v [] | reflexivity].
  - rewrite andb_true_iff, IH. split.
    + intros [H0 H] k v [E|Hin]; [|now apply H].
      inversion E; subst. destruct (Obj.lookup k fb) as [w|]; [|discriminate].
      now exists w.
    + intros H. split.
      * destruct (H k0 v0 (or_introl eq_refl)) as (w & -> & E). exact E.
      * intros k v Hin. apply H. now right.
Qed.

(** On well-formed values the test decides sameness. *)
Lemma structurally_equal_spec (a : JsVal) :
  well_formed a ->
  forall b, well_formed b ->
            (structurally_equal a b = true <-> same_value a b).
Proof.
  induction a using JsVal_nested_ind; intros Ha c Hc.
  1-5: destruct c; simpl; split; intros E;
    try discriminate E; try (inversion E; fail);
    try (constructor; fail); try reflexivity;
    try (rewrite orb_false_r in E;
         first [ apply Bool.eqb_prop in E | apply Z.eqb_eq in E
               | apply String.eqb_eq in E ];
         subst; constructor);
    try (inversion E; subst;
         rewrite ?Bool.eqb_reflx, ?Z.eqb_refl, ?String.eqb_refl; reflexivity).
  rename Hc into Hb. destruct c as [| | | | |fb];
    try (rewrite structurally_equal_unfold; simpl; split; intros E;
         [discriminate E | inversion E]).
  rewrite Forall_forall in H.
  assert (Hrec : forall k v w,
             In (k, v) fs -> Obj.lookup k fb = Some w ->
             (structurally_equal v w = true <-> same_value v w)).
  { intros k v w Hin Hw. apply (H (k, v) Hin).
    - now apply (well_formed_field fs k v).
    - apply (well_formed_field fb k w Hb). now apply lookup_In. }
  rewrite structurally_equal_unfold.
  split.
  - intros E. apply orb_true_iff in E. destruct E as [E|E].
    + apply JsVal_eqb_eq in E. rewrite <- E. apply same_value_refl.
    + apply andb_true_iff in E. destruct E as [Ek Ef].
      rewrite forallb_forall in Ek. rewrite fields_match_spec in Ef.
      constructor. intros k.
      destruct (Obj.lookup k fs) as [v|] eqn:Lv.
      * destruct (Ef k v (lookup_In k v fs Lv)) as (w & Lw & Ew).
        rewrite Lw. constructor.
        now apply (Hrec k v w (lookup_In k v fs Lv) Lw).
      * destruct (Obj.lookup k fb) as [w|] eqn:Lw; [|constructor].
        exfalso. assert (Hk : In k (Obj.keys fb)).
        { apply has_In_keys. apply has_lookup. now exists w. }
        specialize (Ek k Hk). unfold Obj.has in Ek. now rewrite Lv in Ek.
  - intros E. inversion E as [| | | | |fa' fb' Hm]; subst.
    apply orb_true_iff. right. apply andb_true_iff. split.
    + apply forallb_forall. intros k Hk.
      apply has_In_keys in Hk. apply has_lookup in Hk. destruct Hk as [w Lw].
      specialize (Hm k). rewrite Lw in Hm. unfold Obj.has.
      inversion Hm; subst. reflexivity.
    + apply fields_match_spec. intros k v Hin.
      assert (Lv : Obj.lookup k fs = Some v)
        by (apply In_lookup; [apply Ha | exact Hin]).
      specialize (Hm k). rewrite Lv in Hm.
      inversion Hm as [|v' w Hs]; subst. exists w. split; [reflexivity|].
      now apply (Hrec k v w Hin).
Qed.

(** ** Change detection *)

Lemma fold_push_filter {A : Type} (p : A -> bool) (l : list A) :
  forall acc,
    fold_left (fun keys key => if p key then keys ++ [key] else keys) l acc
    = acc ++ filter p l.
Proof.
  induction l as [|x l IH]; intros acc; simpl.
  - now rewrite app_nil_r.
  - rewrite IH. destruct (p x); [now rewrite <- app_assoc | reflexivity].
Qed.

Lemma getChangedKeys_filter (old cur : BindingMap) :
  getChangedKeys (Some old) cur
  = filter (fun key => key_changed cur key (Obj.get key old)) (Obj.keys old).
Proof.
  unfold getChangedKeys.
  now rewrite (fold_push_filter (fun key => key_changed cur key (Obj.get key old))).
Qed.

(** A value is never reported against itself. *)
Lemma key_changed_own (d : BindingMap) (k : string) :
  Obj.has k d = true -> key_changed d k (Obj.get k d) = false.
Proof.
  intros H. unfold key_changed. rewrite (read_own k d H).
  unfold areEqual, strict_eq.
  destruct (String.eqb (typeof (Obj.get k d)) "object") eqn:T.
  - now rewrite structurally_equal_refl.
  - destruct (Obj.get k d); try discriminate T; simpl;
      now rewrite ?Bool.eqb_reflx, ?Z.eqb_refl, ?String.eqb_refl.
Qed.

(** The test of [#getChangedKeys], on well-formed values: the baseline
    value is not the same as what the current mapping reads. *)
Lemma key_changed_spec (cur : BindingMap) (key : string) (v : JsVal) :
  well_formed v -> well_formed (JObj cur) ->
  (key_changed cur key v = true <-> ~ same_read v (Obj.read key cur)).
Proof.
  intros Hv Hc. unfold key_changed.
  assert (Hr : forall c, Obj.read key cur = Data c -> well_formed c).
  { unfold Obj.read. intros c.
    destruct (Obj.lookup key cur) as [x|] eqn:E.
    - intros R. inversion R; subst.
      apply (well_formed_field cur key c Hc). now apply lookup_In.
    - destruct (Obj.inherited key); intros R; inversion R. exact I. }
  destruct (Obj.read key cur) as [c|name]; simpl.
  - specialize (Hr c eq_refl).
    pose proof (structurally_equal_spec v Hv c Hr) as S.
    destruct (String.eqb (typeof v) "object") eqn:T.
    + rewrite negb_true_iff, <- S.
      destruct (structurally_equal v c); split; congruence.
    + rewrite negb_true_iff, <- S.
      destruct v; try discriminate T; destruct c; simpl;
        rewrite ?orb_false_r;
        match goal with
        | |- ?x = false <-> ?y <> true =>
            destruct x eqn:X; destruct y eqn:Y; split; congruence
        end.
  - destruct (String.eqb (typeof v) "object"); simpl; split; auto.
Qed.

(** C6: the changed keys, for well-formed mappings, are exactly the
    keys of the baseline whose baseline value is not the same as what
    the current mapping reads under that name: not the same primitive,
    or not an object with the same properties and the same values under
    them, whatever the order of the properties.  A name that is not a
    key of the baseline is never reported, an undefined baseline
    reports nothing, the baseline {a:1,b:{x:1}} against the current
    {a:1,b:{x:2}} reports exactly b, and a descriptor whose properties
    come in another order is not reported. *)
Theorem getChangedKeys_exact :
  (forall cur, getChangedKeys None cur = [])
  /\ (forall old cur key,
        well_formed (JObj old) -> well_formed (JObj cur) ->
        (In key (getChangedKeys (Some old) cur)
         <-> In key (Obj.keys old)
             /\ ~ same_read (Obj.get key old) (Obj.read key cur)))
  /\ getChangedKeys
       (Some [("a", JNum 1); ("b", JObj [("x", JNum 1)])])
       [("a", JNum 1); ("b", JObj [("x", JNum 2)])]
     = ["b"]
  /\ getChangedKeys
       (Some [("b", JObj [("x", JNum 1); ("y", JNum 2)])])
       [("b", JObj [("y", JNum 2); ("x", JNum 1)])]
     = [].
Proof.
  split; [reflexivity|]. split; [|split; reflexivity].
  intros old cur key Ho Hc. rewrite getChangedKeys_filter, filter_In.
  rewrite (key_changed_spec cur key (Obj.get key old)
             (well_formed_get old key Ho) Hc).
  reflexivity.
Qed.

Lemma getChangedKeys_exact_witness :
  In "b" (getChangedKeys
            (Some [("a", JNum 1); ("b", JObj [("x", JNum 1)])])
            [("a", JNum 1); ("b", JObj [("x", JNum 2)])])
  <-> In "b" (Obj.keys [("a", JNum 1); ("b", JObj [("x", JNum 1)])])
      /\ ~ same_read (Obj.get "b" [("a", JNum 1); ("b", JObj [("x", JNum 1)])])
                     (Obj.read "b" [("a", JNum 1); ("b", JObj [("x", JNum 2)])]).
Proof.
  apply (proj1 (proj2 getChangedKeys_exact)).
  - simpl. repeat split; repeat constructor; simpl; intuition discriminate.
  - simpl. repeat split; repeat constructor; simpl; intuition discriminate.
Defined.

Lemma keys_set (k : string) (v : JsVal) (o : BindingMap) :
  Obj.has k o = true -> Obj.keys (Obj.set k v o) = Obj.keys o.
Proof.
  unfold Obj.has. induction o as [|[k' v'] o IH]; simpl; [discriminate|].
  destruct (String.eqb_spec k k') as [->|Hne]; simpl; [reflexivity|].
  intros H. now rewrite IH.
Qed.

Lemma lookup_set_same (k : string) (v : JsVal) (o : BindingMap) :
  Obj.lookup k (Obj.set k v o) = Some v.
Proof.
  induction o as [|[k' v'] o IH]; simpl.
  - now rewrite String.eqb_refl.
  - destruct (String.eqb_spec k k') as [->|Hne]; simpl.
    + now rewrite String.eqb_refl.
    + apply String.eqb_neq in Hne. now rewrite Hne.
Qed.

Lemma lookup_set_other (k k' : string) (v : JsVal) (o : BindingMap) :
  k <> k' -> Obj.lookup k' (Obj.set k v o) = Obj.lookup k' o.
Proof.
  intros Hne. induction o as [|[k0 v0] o IH]; simpl.
  - destruct (String.eqb_spec k' k); [congruence | reflexivity].
  - destruct (String.eqb_spec k k0) as [->|Hne0]; simpl.
    + destruct (String.eqb_spec k' k0); [congruence | reflexivity].
    + now rewrite IH.
Qed.

Lemma keys_modify (k : string) (f : JsVal -> JsVal) (o : BindingMap) :
  Obj.keys (Obj.modify k f o) = Obj.keys o.
Proof.
  unfold Obj.keys, Obj.modify. rewrite map_map. apply map_ext.
  intros [k' v]; simpl. now destruct (String.eqb k k').
Qed.

(** ** The patch step of [update] *)

Lemma lookup_assign_member_other (k k' : string) (v : JsVal) (o : BindingMap) :
  k <> k' -> Obj.lookup k' (Obj.assign_member k v o) = Obj.lookup k' o.
Proof.
  intros H. unfold Obj.assign_member.
  destruct (Obj.has k o || negb (String.eqb k "__proto__")); [|reflexivity].
  now apply lookup_set_other.
Qed.

Lemma lookup_assign_member_same (k : string) (v : JsVal) (o : BindingMap) :
  Obj.has k o = true \/ k <> "__proto__" ->
  Obj.lookup k (Obj.assign_member k v o) = Some v.
Proof.
  intros H. unfold Obj.assign_member.
  assert (E : Obj.has k o || negb (String.eqb k "__proto__") = true).
  { destruct H as [->|H]; [reflexivity|].
    apply String.eqb_neq in H. rewrite H. apply orb_true_r. }
  rewrite E. apply lookup_set_same.
Qed.

Lemma has_assign_member_mono (k k' : string) (v : JsVal) (o : BindingMap) :
  Obj.has k' o = true -> Obj.has k' (Obj.assign_member k v o) = true.
Proof.
  intros H. unfold Obj.assign_member.
  destruct (Obj.has k o || negb (String.eqb k "__proto__")); [|exact H].
  unfold Obj.has in *. destruct (string_dec k k') as [->|Hne].
  - now rewrite lookup_set_same.
  - now rewrite lookup_set_other.
Qed.

Lemma keys_assign_member_own (k : string) (v : JsVal) (o : BindingMap) :
  Obj.has k o = true -> Obj.keys (Obj.assign_member k v o) = Obj.keys o.
Proof.
  intros H. unfold Obj.assign_member. rewrite H. simpl. now apply keys_set.
Qed.

Lemma is_in_assign_member (k k' : string) (v : JsVal) (o : BindingMap) :
  Obj.is_in k o = true ->
  Obj.is_in k' (Obj.assign_member k v o) = Obj.is_in k' o.
Proof.
  intros H. unfold Obj.is_in in *. destruct (string_dec k k') as [<-|Hne].
  - rewrite H. destruct (Obj.has k o) eqn:E.
    + now rewrite has_assign_member_mono.
    + simpl in H. rewrite H. apply orb_true_r.
  - unfold Obj.has. now rewrite lookup_assign_member_other.
Qed.

Section Patch_step.

Variable m : BindingMap.

Let step (st : Store) (key : string) : Store :=
  if Obj.is_in key (value st)
  then with_value
         (Obj.assign_member key (Obj.get key m) (value st))
         (filter (fun k => negb (String.eqb key k)) (shared st)) st
  else st.

Lemma patch_fold_rest (l : list string) :
  forall s,
    let s' := fold_left step l s in
    oldKeyBindings s' = oldKeyBindings s /\ on_ s' = on_ s
    /\ defaultKeyBindings s' = defaultKeyBindings s
    /\ editor s' = editor s /\ file s' = file s /\ log s' = log s
    /\ initialized s' = initialized s.
Proof.
  induction l as [|k l IH]; intros s; simpl; [repeat split|].
  destruct (IH (step s k)) as (H1 & H2 & H3 & H4 & H5 & H6 & H7).
  rewrite H1, H2, H3, H4, H5, H6, H7. unfold step.
  destruct (Obj.is_in k (value s)); repeat split.
Qed.

Lemma patch_fold_untouched (l : list string) (k : string) :
  ~ In k l ->
  forall s, Obj.lookup k (value (fold_left step l s)) = Obj.lookup k (value s).
Proof.
  induction l as [|k0 l IH]; intros Hk s; simpl; [reflexivity|].
  rewrite IH by (intros H; apply Hk; now right).
  unfold step. destruct (Obj.is_in k0 (value s)); [simpl | reflexivity].
  apply lookup_assign_member_other. intros ->. apply Hk. now left.
Qed.

Lemma patch_fold_has_mono (l : list string) (k : string) :
  forall s, Obj.has k (value s) = true ->
            Obj.has k (value (fold_left step l s)) = true.
Proof.
  induction l as [|k0 l IH]; intros s H; simpl; [exact H|].
  apply IH. unfold step. destruct (Obj.is_in k0 (value s)); [simpl|exact H].
  now apply has_assign_member_mono.
Qed.

Lemma patch_fold_is_in (l : list string) (k : string) :
  forall s, Obj.is_in k (value (fold_left step l s)) = Obj.is_in k (value s).
Proof.
  induction l as [|k0 l IH]; intros s; simpl; [reflexivity|].
  rewrite IH. unfold step. destruct (Obj.is_in k0 (value s)) eqn:E;
    [simpl|reflexivity].
  now apply is_in_assign_member.
Qed.

Lemma patch_fold_written (l : list string) (k : string) :
  In k l ->
  forall s, Obj.is_in k (value s) = true ->
            Obj.has k (value s) = true \/ k <> "__proto__" ->
            Obj.lookup k (value (fold_left step l s)) = Some (Obj.get k m).
Proof.
  induction l as [|k0 l IH]; intros Hk s Hin Hw; simpl; [contradiction|].
  assert (Hin' : Obj.is_in k (value (step s k0)) = true).
  { rewrite <- Hin. apply (patch_fold_is_in [k0] k s). }
  assert (Hw' : Obj.has k (value (step s k0)) = true \/ k <> "__proto__").
  { destruct Hw as [Hw|Hw]; [left|now right].
    apply (patch_fold_has_mono [k0] k s Hw). }
  destruct (in_dec string_dec k l) as [Hl|Hnl].
  - now apply IH.
  - destruct Hk as [->|Hk]; [|contradiction].
    rewrite patch_fold_untouched by exact Hnl.
    unfold step. rewrite Hin. simpl. now apply lookup_assign_member_same.
Qed.

Lemma patch_fold_unknown (l : list string) :
  forall s, (forall k, In k l -> Obj.is_in k (value s) = false) ->
            fold_left step l s = s.
Proof.
  induction l as [|k l IH]; intros s H; simpl; [reflexivity|].
  assert (E : step s k = s) by (unfold step; now rewrite (H k (or_introl eq_refl))).
  rewrite E. apply IH. intros k' Hk'. apply H. now right.
Qed.

Lemma patch_fold_keys (l : list string) :
  forall s,
    (forall k, In k l -> Obj.has k (value s) = true \/ Obj.inherited k = false) ->
    Obj.keys (value (fold_left step l s)) = Obj.keys (value s).
Proof.
  induction l as [|k l IH]; intros s H; simpl; [reflexivity|].
  assert (E : Obj.keys (value (step s k)) = Obj.keys (value s)).
  { unfold step. destruct (Obj.is_in k (value s)) eqn:I; [simpl|reflexivity].
    apply keys_assign_member_own.
    destruct (H k (or_introl eq_refl)) as [Hh|Hi]; [exact Hh|].
    unfold Obj.is_in in I. rewrite Hi, orb_false_r in I. exact I. }
  rewrite IH; [exact E|].
  intros k' Hk'. destruct (H k' (or_intror Hk')) as [Hh|Hi]; [left|now right].
  apply (patch_fold_has_mono [k] k' s Hh).
Qed.

End Patch_step.

(** ** Callbacks leave the data alone *)

Lemma same_data_refl (s : Store) : same_data s s.
Proof. repeat split. Qed.

Lemma same_data_trans (s1 s2 s3 : Store) :
  same_data s1 s2 -> same_data s2 s3 -> same_data s1 s3.
Proof.
  unfold same_data. intros (A1 & A2 & A3 & A4 & A5 & A6 & A7)
                           (B1 & B2 & B3 & B4 & B5 & B6 & B7).
  repeat split; congruence.
Qed.

Lemma call_same_data beh e cb arg s : same_data s (call beh e cb arg s).
Proof. repeat split. Qed.

Lemma call_log beh e cb arg s : log (call beh e cb arg s) = log s ++ [e].
Proof. reflexivity. Qed.

Lemma invoke_all_spec beh ph key (ls : list Listener) :
  forall s,
    same_data s (invoke_all beh ph key ls s)
    /\ log (invoke_all beh ph key ls s)
       = log s ++ calls_for ph (value s) key ls.
Proof.
  unfold invoke_all, calls_for.
  induction ls as [|cb ls IH]; intros s; simpl.
  - split; [apply same_data_refl | now rewrite app_nil_r].
  - destruct (IH (call beh (phase_event ph key cb (Obj.read key (value s)))
                       cb (Obj.read key (value s)) s)) as [D L].
    split.
    + eapply same_data_trans; [apply call_same_data | exact D].
    + rewrite L. simpl. now rewrite <- app_assoc.
Qed.

Lemma dispatch_same_data beh ph (keys : list string) :
  forall acc s, same_data s (dispatch beh ph keys acc s).
Proof.
  induction keys as [|k keys IH]; intros acc s; simpl.
  - apply same_data_refl.
  - eapply same_data_trans; [|apply IH]. apply invoke_all_spec.
Qed.

Lemma dispatch_nil_log beh ph acc s : dispatch beh ph [] acc s = s.
Proof. reflexivity. Qed.

(** ** What [applyBindings] and [#save] keep *)

Lemma apply_key_keys byName s key :
  Obj.keys (value (apply_key byName s key)) = Obj.keys (value s)
  /\ Obj.keys (defaultKeyBindings (apply_key byName s key))
     = Obj.keys (defaultKeyBindings s).
Proof.
  unfold apply_key.
  destruct (negb (truthy (Obj.read key byName))
            || negb (truthy (Obj.read key (value s)))); [now split|].
  destruct (truthy (shortcut_key (Obj.read key (value s)))); [|now split].
  destruct (is_shared key s); simpl; now rewrite !keys_modify.
Qed.

Lemma applyBindings_keys (keys : list string) s :
  Obj.keys (value (snd (applyBindings keys s))) = Obj.keys (value s)
  /\ Obj.keys (defaultKeyBindings (snd (applyBindings keys s)))
     = Obj.keys (defaultKeyBindings s).
Proof.
  unfold applyBindings. destruct (editor s) as [byName|]; [simpl|now split].
  revert s. induction keys as [|k keys IH]; intros s; simpl; [now split|].
  destruct (IH (apply_key byName s k)) as [A B].
  destruct (apply_key_keys byName s k) as [C D]. split; congruence.
Qed.

Lemma applyBindings_nil s :
  applyBindings [] s = (match editor s with None => Threw | Some _ => Ok end, s).
Proof. unfold applyBindings. now destruct (editor s). Qed.

Lemma save_value s :
  value (save s) = value s
  /\ defaultKeyBindings (save s) = defaultKeyBindings s
  /\ oldKeyBindings (save s) = Some (value s)
  /\ file (save s) = Some (json (JObj (value s))).
Proof. unfold save. destruct (file s); repeat split. Qed.

(** After the patch step, [update] neither adds nor removes a key of
    [value] or of the defaults. *)
Lemma update_keys beh keyBindings showToast saveFile s :
  let s' := snd (update beh keyBindings showToast saveFile s) in
  Obj.keys (value s') = Obj.keys (value (patched keyBindings s))
  /\ Obj.keys (defaultKeyBindings s') = Obj.keys (defaultKeyBindings s).
Proof.
  unfold update. fold (patched keyBindings s).
  set (s1 := patched keyBindings s).
  assert (H1 : Obj.keys (value s1) = Obj.keys (value s1)
               /\ defaultKeyBindings s1 = defaultKeyBindings s).
  { unfold s1, patched. destruct keyBindings as [| |m]; try now split.
    unfold apply_patch. split; [reflexivity|].
    apply (patch_fold_rest m (Obj.keys m) s). }
  set (changed := getChangedKeys (oldKeyBindings s1) (value s1)).
  set (s2 := dispatch beh Before changed (Reg.list_of "update" (on_ s)) s1).
  destruct (dispatch_same_data beh Before changed (Reg.list_of "update" (on_ s)) s1)
    as (_ & D2 & D3 & _). fold s2 in D2, D3.
  destruct (applyBindings_keys changed s2) as [A B].
  destruct (applyBindings changed s2) as [[] s3] eqn:E; simpl in A, B |- *.
  - set (s4 := if saveFile then save s3 else s3).
    assert (H4 : value s4 = value s3 /\ defaultKeyBindings s4 = defaultKeyBindings s3).
    { unfold s4. destruct saveFile; [|now split].
      destruct (save_value s3) as (X & Y & _). now split. }
    set (s5 := if match keyBindings with Flag b => b | _ => showToast end
               then emit EvToast s4 else s4).
    assert (H5 : value s5 = value s4 /\ defaultKeyBindings s5 = defaultKeyBindings s4).
    { unfold s5. destruct (match keyBindings with Flag b => b | _ => showToast end);
        now split. }
    destruct (dispatch_same_data beh After changed
                (Reg.list_of "update:after" (on_ s)) s5) as (_ & E2 & E3 & _).
    destruct H1, H4, H5. split; congruence.
  - destruct H1. split; congruence.
Qed.

(** ** What [applyBindings] rewrites *)

Lemma lookup_modify_same (k : string) (f : JsVal -> JsVal) (o : BindingMap) :
  Obj.lookup k (Obj.modify k f o) = option_map f (Obj.lookup k o).
Proof.
  induction o as [|[k0 v0] o IH]; simpl; [reflexivity|].
  destruct (String.eqb_spec k k0) as [->|Hne]; simpl.
  - now rewrite String.eqb_refl.
  - apply String.eqb_neq in Hne. now rewrite Hne.
Qed.

Lemma lookup_modify_other (k k' : string) (f : JsVal -> JsVal) (o : BindingMap) :
  k <> k' -> Obj.lookup k' (Obj.modify k f o) = Obj.lookup k' o.
Proof.
  intros Hne. induction o as [|[k0 v0] o IH]; simpl; [reflexivity|].
  destruct (String.eqb_spec k k0) as [->|Hne0]; simpl;
    destruct (String.eqb_spec k' k0); try congruence; exact IH.
Qed.

Lemma apply_key_value byName s k :
  value (apply_key byName s k)
  = if truthy (Obj.read k byName) && truthy (Obj.read k (value s))
       && truthy (shortcut_key (Obj.read k (value s)))
    then Obj.modify k normalize (value s)
    else value s.
Proof.
  unfold apply_key.
  destruct (truthy (Obj.read k byName)); cbn [negb orb andb]; [|reflexivity].
  destruct (truthy (Obj.read k (value s))); cbn [negb orb andb]; [|reflexivity].
  destruct (truthy (shortcut_key (Obj.read k (value s)))); [|reflexivity].
  destruct (is_shared k s); reflexivity.
Qed.

Lemma apply_keys_settled_value byName (keys : list string) :
  forall s,
    (forall k, In k keys -> settled byName (value s) k) ->
    value (fold_left (apply_key byName) keys s) = value s.
Proof.
  induction keys as [|k0 keys IH]; intros s H; simpl; [reflexivity|].
  assert (V : value (apply_key byName s k0) = value s).
  { rewrite apply_key_value. unfold settled in H.
    now rewrite (H k0 (or_introl eq_refl)). }
  rewrite IH; [exact V|]. intros k Hin. rewrite V. apply H. now right.
Qed.

Lemma apply_keys_settled_defaults byName (keys : list string) :
  forall s,
    (forall k, In k keys -> settled byName (value s) k) ->
    defaultKeyBindings (fold_left (apply_key byName) keys s)
    = defaultKeyBindings s.
Proof.
  induction keys as [|k0 keys IH]; intros s H; simpl; [reflexivity|].
  assert (V : value (apply_key byName s k0) = value s).
  { rewrite apply_key_value. unfold settled in H.
    now rewrite (H k0 (or_introl eq_refl)). }
  assert (D : defaultKeyBindings (apply_key byName s k0) = defaultKeyBindings s).
  { unfold apply_key. pose proof (H k0 (or_introl eq_refl)) as S.
    unfold settled in S.
    destruct (truthy (Obj.read k0 byName)); cbn [negb orb andb] in *;
      [|reflexivity].
    destruct (truthy (Obj.read k0 (value s))); cbn [negb orb andb] in *;
      [|reflexivity].
    now rewrite S. }
  rewrite IH; [exact D|]. intros k Hin. rewrite V. apply H. now right.
Qed.

(** ** Unknown patch keys *)

(** C7, as stated, fails where a change is pending: after
    [update({a: 2}, true, false)] the patch {zzz: 1} of unknown keys
    leaves [value] alone, but the changed keys of that call are [a]. *)
Lemma unknown_patch_changed_set_not_empty :
  ~ (forall (s : Store) (m : BindingMap),
        (forall key, In key (Obj.keys m) -> has key s = false) ->
        value (patched (Fields m) s) = value s
        /\ changed_by (Fields m) s = []).
Proof.
  intros H.
  destruct (H store_a_pending [("zzz", JNum 1)]) as [_ E].
  - intros key [<-|[]]. reflexivity.
  - discriminate E.
Qed.

(** C7, amended: the patch step writes the patch's value under every
    patch key that is an own key of [value] and touches no key that
    the patch does not name; it adds no key when every patch key is an
    own key or a name that [Object.prototype] does not have.  For a
    patch whose keys are all unknown ([key in value] is false), the
    patch step leaves [value] as it is and the changed keys of the call
    are those pending before the call (none when none was pending);
    the whole call then leaves [value] unchanged, provided
    [applyBindings] has nothing to rewrite in the pending keys. *)
Theorem patch_step_frame (beh : Behaviour) (m : BindingMap)
                         (showToast saveFile : bool) (s : Store) :
  (forall key, In key (Obj.keys m) -> Obj.has key (value s) = true ->
               Obj.lookup key (value (patched (Fields m) s))
               = Some (Obj.get key m))
  /\ (forall key, ~ In key (Obj.keys m) ->
                  Obj.lookup key (value (patched (Fields m) s))
                  = Obj.lookup key (value s))
  /\ ((forall key, In key (Obj.keys m) ->
                   Obj.has key (value s) = true \/ Obj.inherited key = false) ->
      Obj.keys (value (patched (Fields m) s)) = Obj.keys (value s))
  /\ ((forall key, In key (Obj.keys m) -> has key s = false) ->
      value (patched (Fields m) s) = value s
      /\ changed_by (Fields m) s = getChangedKeys (oldKeyBindings s) (value s)
      /\ ((forall byName key,
              editor s = Some byName ->
              In key (getChangedKeys (oldKeyBindings s) (value s)) ->
              settled byName (value s) key) ->
          value (snd (update beh (Fields m) showToast saveFile s)) = value s)).
Proof.
  split; [|split; [|split]].
  - intros key Hin Hhas. apply (patch_fold_written m (Obj.keys m) key Hin s).
    + unfold Obj.is_in. now rewrite Hhas.
    + now left.
  - intros key Hnin. now apply (patch_fold_untouched m (Obj.keys m) key Hnin s).
  - intros H. now apply (patch_fold_keys m (Obj.keys m) s).
  - intros Hun.
    assert (P : patched (Fields m) s = s)
      by (apply (patch_fold_unknown m (Obj.keys m) s Hun)).
    split; [now rewrite P|]. split; [unfold changed_by; now rewrite P|].
    intros Hset. unfold update. fold (patched (Fields m) s). rewrite P.
    set (changed := getChangedKeys (oldKeyBindings s) (value s)) in *.
    destruct (dispatch_same_data beh Before changed
                (Reg.list_of "update" (on_ s)) s)
      as (_ & _ & V2 & _ & E2 & _).
    set (s2 := dispatch beh Before changed _ s) in *.
    unfold applyBindings. rewrite E2.
    destruct (editor s) as [byName|] eqn:Ed; cbn [snd]; [|exact V2].
    assert (V3 : value (fold_left (apply_key byName) changed s2) = value s2).
    { apply apply_keys_settled_value. intros k Hk. rewrite V2.
      now apply Hset. }
    set (s3 := fold_left (apply_key byName) changed s2) in *.
    match goal with
    | |- context [dispatch beh After ?k ?a ?x] =>
        destruct (dispatch_same_data beh After k a x) as (_ & _ & V6 & _);
        rewrite V6
    end.
    destruct (save_value s3) as (V4 & _).
    destruct saveFile, showToast; unfold emit; cbn [value]; congruence.
Qed.

Lemma patch_step_frame_witness :
  value (patched (Fields [("zzz", JNum 1)]) store_a_pending)
  = value store_a_pending
  /\ changed_by (Fields [("zzz", JNum 1)]) store_a_pending = ["a"]
  /\ value (snd (update quiet (Fields [("zzz", JNum 1)]) true true
                        store_a_pending))
     = value store_a_pending.
Proof.
  destruct (patch_step_frame quiet [("zzz", JNum 1)] true true store_a_pending)
    as (_ & _ & _ & H).
  destruct H as (H1 & H2 & H3).
  - intros key [<-|[]]. reflexivity.
  - split; [exact H1|]. split; [rewrite H2; reflexivity|].
    apply H3. intros byName key E Hin. inversion E; subst.
    destruct Hin as [<-|[]]. reflexivity.
Defined.

(** ** The key set of [value] *)

Lemma fire_reset_same_data beh (n : nat) :
  forall i s, same_data s (fire_reset beh n i s).
Proof.
  induction n as [|n IH]; intros i s; simpl; [apply same_data_refl|].
  destruct (nth_error (Reg.list_of "reset" (on_ s)) i) as [cb|]; [|apply IH].
  eapply same_data_trans; [apply call_same_data | apply IH].
Qed.

Lemma reset_keys_keys (keyBindings : list string) :
  forall s, same_keys s ->
            Obj.keys (value (reset_keys keyBindings s)) = Obj.keys (value s)
            /\ defaultKeyBindings (reset_keys keyBindings s) = defaultKeyBindings s.
Proof.
  unfold reset_keys.
  induction keyBindings as [|k ks IH]; intros s H; simpl; [now split|].
  destruct (Obj.has k (defaultKeyBindings s)) eqn:E; simpl; [|now apply IH].
  assert (Hv : Obj.has k (value s) = true).
  { apply has_In_keys. rewrite H. now apply has_In_keys. }
  match goal with |- context [fold_left _ ks ?st] => destruct (IH st) as [A B] end.
  - unfold same_keys. simpl. now rewrite keys_set.
  - rewrite A, B. simpl. split; [now apply keys_set | reflexivity].
Qed.

Lemma reset_keys_frame beh (keyBindings : list string) s :
  same_keys s ->
  same_keys (snd (reset beh keyBindings s))
  /\ Obj.keys (value (snd (reset beh keyBindings s))) = Obj.keys (value s).
Proof.
  intros H. unfold reset.
  set (s1 := match keyBindings with
             | [] => value_reset s
             | _ => reset_keys keyBindings s
             end).
  assert (H1 : Obj.keys (value s1) = Obj.keys (value s)
               /\ defaultKeyBindings s1 = defaultKeyBindings s).
  { unfold s1. destruct keyBindings as [|k ks].
    - simpl. split; [symmetry; exact H | reflexivity].
    - now apply reset_keys_keys. }
  destruct H1 as [K1 D1].
  destruct (update_keys beh (Flag false) true true s1) as [A B].
  change (patched (Flag false) s1) with s1 in A.
  destruct (update beh (Flag false) true true s1) as [[] s2]; simpl in A, B |- *.
  - destruct (fire_reset_same_data beh (List.length (Reg.list_of "reset" (on_ s2))) 0 s2)
      as (_ & F2 & F3 & _).
    unfold same_keys in *. rewrite F2, F3, A, B, K1, D1. now split.
  - unfold same_keys in *. rewrite A, B, K1, D1. now split.
Qed.

(** C5: the key set is not kept by [update].  The patch step tests
    [key in this.value], which is true for the names that
    [Object.prototype] provides: [update({toString: 1})] on a store
    whose keys are those of the defaults writes [toString] as a new
    key of [value], and the file and the baseline get it too, whereas
    [reset("toString")], which tests [hasOwnProperty], adds nothing. *)
Theorem update_adds_inherited_key :
  same_keys store_a
  /\ Obj.keys (defaultKeyBindings store_a) = ["a"]
  /\ Obj.keys (value (snd (update quiet (Fields [("toString", JNum 1)])
                                  true true store_a)))
     = ["a"; "toString"]
  /\ file (snd (update quiet (Fields [("toString", JNum 1)]) true true store_a))
     = Some (JObj [("a", JNum 1); ("toString", JNum 1)])
  /\ oldKeyBindings (snd (update quiet (Fields [("toString", JNum 1)])
                                 true true store_a))
     = Some [("a", JNum 1); ("toString", JNum 1)]
  /\ ~ same_keys (snd (update quiet (Fields [("toString", JNum 1)])
                              true true store_a))
  /\ Obj.keys (value (snd (reset quiet ["toString"] store_a))) = ["a"].
Proof.
  repeat split; try reflexivity. intros H. discriminate H.
Qed.

(** ** Initialisation over existing storage *)

(** C1: the round trip fails.  After [update({a: 2})] has persisted
    a = 2, [init] of a new store over that storage reads the document,
    then runs [reset()], which puts the defaults in [value] and writes
    them over the document: [value] is a = 1, not the saved a = 2. *)
Theorem init_discards_persisted :
  file store_a_saved = Some (JObj [("a", JNum 2)])
  /\ oldKeyBindings store_a_saved = Some [("a", JNum 2)]
  /\ init quiet [] store_a_restart
     = (Ok, mkStore true Reg.initial [("a", JNum 1)] [("a", JNum 1)]
                    (Some [("a", JNum 1)]) (Some []) []
                    (Some (JObj [("a", JNum 1)]))
                    [EvWriteFile (JObj [("a", JNum 1)])])
  /\ value (snd (init quiet [] store_a_restart)) <> [("a", JNum 2)].
Proof.
  repeat split; try reflexivity. intros H. discriminate H.
Qed.

(** C3: the healing loop tests each default against itself, so a
    document whose value for a key has another type than the default
    (a: 5 against the string default), or lacks the key, is left as it
    was read. *)
Theorem heal_keeps_mismatch :
  heal [("a", JStr "Ctrl-A")] (JObj [("a", JNum 5)])
  = Some (JObj [("a", JNum 5)])
  /\ heal [("a", JStr "Ctrl-A")] (JObj []) = Some (JObj []).
Proof. split; reflexivity. Qed.

(** What the loop does in general: only a default that is itself
    [undefined] is written into the document. *)
Lemma heal_entries_object (defaults l fs : BindingMap) :
  Forall (fun kv => snd kv <> JUndef /\ Obj.get (fst kv) defaults = snd kv) l ->
  fold_left (heal_entry defaults) l (Some (JObj fs)) = Some (JObj fs).
Proof.
  induction 1 as [|[k v] l [Hv Hk] _ IH]; [reflexivity|].
  simpl in *. rewrite Hk, String.eqb_refl.
  destruct v; simpl; try exact IH. congruence.
Qed.

(** C9, as stated, fails: with a null document [init] returns
    normally, but the store is not as it was: it is now marked
    initialised and holds the editor. *)
Lemma init_unusable_document_changes_store :
  ~ (snd (init quiet [] (new_store [("a", JNum 1)] (Some JNull)))
     = new_store [("a", JNum 1)] (Some JNull))
  /\ initialized (new_store [("a", JNum 1)] (Some JNull)) = false
  /\ initialized (snd (init quiet [] (new_store [("a", JNum 1)] (Some JNull))))
     = true
  /\ editor (snd (init quiet [] (new_store [("a", JNum 1)] (Some JNull))))
     = Some [].
Proof.
  repeat split. intros H. discriminate H.
Qed.

(** C9, amended: when the file exists and reading it yields a falsy
    document (null for an empty or unparsable text), [init] returns
    normally after recording the editor and the initialised flag, and
    changes nothing else: [value], the defaults, the baseline, the
    registry, the storage and the log are as before, so a new store
    keeps the defaults as [value], has no baseline and has run no
    callback. *)
Theorem init_unusable_document (beh : Behaviour) (ed : BindingMap) (s : Store)
    (doc : JsVal)
    (Hinit : initialized s = false)
    (Hfile : file s = Some doc)
    (Hdoc : truthy doc = false) :
  init beh ed s = (Ok, with_editor ed s)
  /\ value (snd (init beh ed s)) = value s
  /\ defaultKeyBindings (snd (init beh ed s)) = defaultKeyBindings s
  /\ oldKeyBindings (snd (init beh ed s)) = oldKeyBindings s
  /\ on_ (snd (init beh ed s)) = on_ s
  /\ file (snd (init beh ed s)) = file s
  /\ log (snd (init beh ed s)) = log s.
Proof.
  assert (E : init beh ed s = (Ok, with_editor ed s)).
  { unfold init. rewrite Hinit. cbv zeta.
    change (file (with_editor ed s)) with (file s).
    rewrite Hfile, Hdoc. reflexivity. }
  rewrite E. repeat split.
Qed.

Lemma init_unusable_document_witness :
  init quiet [] (new_store [("a", JNum 1)] (Some JNull))
  = (Ok, with_editor [] (new_store [("a", JNum 1)] (Some JNull)))
  /\ value (snd (init quiet [] (new_store [("a", JNum 1)] (Some JNull))))
     = [("a", JNum 1)]
  /\ oldKeyBindings (snd (init quiet [] (new_store [("a", JNum 1)] (Some JNull))))
     = None
  /\ log (snd (init quiet [] (new_store [("a", JNum 1)] (Some JNull)))) = [].
Proof.
  destruct (init_unusable_document quiet [] (new_store [("a", JNum 1)] (Some JNull))
              JNull eq_refl eq_refl eq_refl) as (E & V & _ & B & _ & _ & L).
  split; [exact E|]. split; [rewrite V; reflexivity|].
  split; [rewrite B; reflexivity | rewrite L; reflexivity].
Defined.

(** ** Listener fan-out *)

(** C2: the local array [onupdate] is pushed onto for every changed key
    and never reset, so the callbacks gathered for an earlier key run
    again for every later key.  With callback 1 on [update] and
    callback 2 on [update:a], [update({a: 2, c: 3})] calls 1 and 2 with
    a's value and then 1 and 2, not 1 alone, with c's value. *)
Theorem update_specific_listener_leaks :
  changed_by (Fields [("a", JNum 2); ("c", JNum 3)]) store_ac = ["a"; "c"]
  /\ log (snd (update quiet (Fields [("a", JNum 2); ("c", JNum 3)])
                      true true store_ac))
     = log store_ac
       ++ [EvUpdate "a" 1 (JNum 2); EvUpdate "a" 2 (JNum 2);
           EvUpdate "c" 1 (JNum 3); EvUpdate "c" 2 (JNum 3);
           EvWriteFile (JObj [("a", JNum 2); ("c", JNum 3)]); EvToast].
Proof. split; reflexivity. Qed.

(** ** The shape of an [update] call *)

Lemma patched_rest (p : Patch) (s : Store) :
  oldKeyBindings (patched p s) = oldKeyBindings s
  /\ on_ (patched p s) = on_ s
  /\ defaultKeyBindings (patched p s) = defaultKeyBindings s
  /\ editor (patched p s) = editor s
  /\ file (patched p s) = file s
  /\ log (patched p s) = log s.
Proof.
  destruct p as [| |m]; simpl; try (repeat split; fail).
  destruct (patch_fold_rest m (Obj.keys m) s) as (A & B & C & D & E & F & _).
  unfold apply_patch. repeat split; assumption.
Qed.

(** With an editor recorded, [update] runs to its end: patch, first
    dispatch loop, [applyBindings], [#save], toast, second loop. *)
Lemma update_shape beh (p : Patch) (showToast saveFile : bool) (s : Store)
      (byName : BindingMap) :
  editor s = Some byName ->
  update beh p showToast saveFile s
  = (Ok,
     dispatch beh After (changed_by p s) (Reg.list_of "update:after" (on_ s))
       ((fun s4 => if match p with Flag b => b | _ => showToast end
                   then emit EvToast s4 else s4)
          ((fun s3 => if saveFile then save s3 else s3)
             (fold_left (apply_key byName) (changed_by p s)
                (dispatch beh Before (changed_by p s)
                          (Reg.list_of "update" (on_ s)) (patched p s)))))).
Proof.
  intros He. unfold update. fold (patched p s). fold (changed_by p s).
  unfold applyBindings.
  destruct (dispatch_same_data beh Before (changed_by p s)
              (Reg.list_of "update" (on_ s)) (patched p s))
    as (_ & _ & _ & _ & E & _).
  destruct (patched_rest p s) as (_ & _ & _ & E' & _).
  rewrite E, E', He. reflexivity.
Qed.

Lemma apply_keys_unchanged byName (keys : list string) :
  forall s,
    nothing_to_normalize byName (value s) ->
    same_data s (fold_left (apply_key byName) keys s)
    /\ on_ (fold_left (apply_key byName) keys s) = on_ s.
Proof.
  induction keys as [|k keys IH]; intros s H; simpl.
  - split; [apply same_data_refl | reflexivity].
  - assert (E : apply_key byName s k = s
                \/ exists cmd, apply_key byName s k = emit (EvAddCommand cmd) s).
    { unfold apply_key. specialize (H k).
      destruct (truthy (Obj.read k byName)); simpl in *; [|now left].
      rewrite H. destruct (truthy (Obj.read k (value s))); simpl; [|now left].
      right. eexists. reflexivity. }
    destruct E as [->|[cmd ->]]; [now apply IH|].
    destruct (IH (emit (EvAddCommand cmd) s) H) as [D O].
    split; [exact D | exact O].
Qed.

Lemma apply_keys_frame byName (keys : list string) :
  forall s,
    let s' := fold_left (apply_key byName) keys s in
    initialized s' = initialized s /\ oldKeyBindings s' = oldKeyBindings s
    /\ editor s' = editor s /\ file s' = file s.
Proof.
  induction keys as [|k keys IH]; intros s; simpl; [repeat split|].
  destruct (IH (apply_key byName s k)) as (A & B & C & D).
  rewrite A, B, C, D. unfold apply_key.
  destruct (negb (truthy (Obj.read k byName))
            || negb (truthy (Obj.read k (value s)))); [repeat split|].
  destruct (truthy (shortcut_key (Obj.read k (value s)))); [|repeat split].
  destruct (is_shared k s); repeat split.
Qed.

Lemma getChangedKeys_same (d : BindingMap) : getChangedKeys (Some d) d = [].
Proof.
  rewrite getChangedKeys_filter.
  assert (H : forall l, (forall k, In k l -> In k (Obj.keys d)) ->
                        filter (fun key => key_changed d key (Obj.get key d)) l
                        = []).
  { induction l as [|k l IH]; intros Hl; [reflexivity|]. simpl.
    rewrite key_changed_own by (apply has_In_keys; apply Hl; now left).
    apply IH. intros k' Hk'. apply Hl. now right. }
  apply H. auto.
Qed.

(** ** Reset *)

(** [reset()] on an initialised store, when [applyBindings] has
    nothing to rewrite in the keys it is given: [value] and the
    baseline end as the defaults. *)
Lemma reset_all_settled beh (s : Store) (byName : BindingMap) :
  editor s = Some byName ->
  (forall key, In key (changed_by (Flag false) (value_reset s)) ->
               settled byName (defaultKeyBindings s) key) ->
  exists s',
    reset beh [] s = (Ok, s')
    /\ value s' = defaultKeyBindings s
    /\ defaultKeyBindings s' = defaultKeyBindings s
    /\ oldKeyBindings s' = Some (defaultKeyBindings s)
    /\ editor s' = Some byName.
Proof.
  intros He Hn. unfold reset.
  rewrite (update_shape beh (Flag false) true true (value_reset s) byName He).
  eexists. split; [reflexivity|].
  set (changed := changed_by (Flag false) (value_reset s)) in *.
  set (s2 := dispatch beh Before changed _ _).
  assert (D2 : same_data (value_reset s) s2) by apply dispatch_same_data.
  destruct D2 as (_ & D2d & D2v & _ & D2e & _).
  simpl in D2d, D2v, D2e. unfold structuredClone in D2v.
  assert (D3v : value (fold_left (apply_key byName) changed s2) = value s2).
  { apply apply_keys_settled_value. intros k Hk. rewrite D2v. now apply Hn. }
  destruct (apply_keys_frame byName changed s2) as (_ & _ & D3e & _).
  assert (D3d : defaultKeyBindings (fold_left (apply_key byName) changed s2)
                = defaultKeyBindings s2).
  { apply apply_keys_settled_defaults. intros k Hk. rewrite D2v. now apply Hn. }
  set (s3 := fold_left (apply_key byName) changed s2) in *.
  destruct (save_value s3) as (S1 & S2 & S3 & _).
  assert (S5 : editor (save s3) = editor s3)
    by (unfold save; destruct (file s3); reflexivity).
  set (s6 := dispatch beh After changed _ (save s3)).
  assert (D6 : same_data (save s3) s6) by apply dispatch_same_data.
  destruct D6 as (_ & D6d & D6v & D6o & D6e & _).
  destruct (fire_reset_same_data beh (List.length (Reg.list_of "reset" (on_ s6))) 0 s6)
    as (_ & Fd & Fv & Fo & Fe & _).
  repeat split; congruence.
Qed.

(** C8, as stated, fails once [applyBindings] rewrites a descriptor:
    with the default save = {key: "Ctrl-S"} and a command named save,
    [reset()] leaves save = {bindKey: {win: "Ctrl-S"}} in [value] and
    in the baseline, so [value] is not the defaults and the second
    [reset()] finds save changed again. *)
Lemma reset_twice_not_defaults :
  ~ (value (snd (reset quiet [] store_save)) = defaultKeyBindings store_save
     /\ changed_by (Flag false)
                   (value_reset (snd (reset quiet [] store_save))) = []).
Proof. intros [H _]. vm_compute in H. discriminate H. Qed.

(** C8, amended: on a store with an editor recorded, when
    [applyBindings] has nothing to rewrite in the keys that the first
    call reports as changed (for none of them is there both a command
    of that name and a default descriptor with a truthy [key] field),
    [reset()] twice in a row returns normally both times, leaves
    [value] equal to the defaults after each call, and the changed keys
    computed inside the second call are none. *)
Theorem reset_twice_idempotent (beh : Behaviour) (s : Store)
    (byName : BindingMap)
    (Heditor : editor s = Some byName)
    (Hsettled : forall key,
        In key (changed_by (Flag false) (value_reset s)) ->
        settled byName (defaultKeyBindings s) key) :
  fst (reset beh [] s) = Ok
  /\ value (snd (reset beh [] s)) = defaultKeyBindings s
  /\ fst (reset beh [] (snd (reset beh [] s))) = Ok
  /\ value (snd (reset beh [] (snd (reset beh [] s)))) = defaultKeyBindings s
  /\ defaultKeyBindings (snd (reset beh [] (snd (reset beh [] s))))
     = defaultKeyBindings s
  /\ changed_by (Flag false) (value_reset (snd (reset beh [] s))) = [].
Proof.
  destruct (reset_all_settled beh s byName Heditor Hsettled)
    as (s1 & E1 & V1 & D1 & O1 & Ed1).
  rewrite E1. cbn [fst snd].
  assert (C : changed_by (Flag false) (value_reset s1) = []).
  { unfold changed_by. simpl. rewrite O1, D1. apply getChangedKeys_same. }
  assert (Hsettled1 : forall key,
             In key (changed_by (Flag false) (value_reset s1)) ->
             settled byName (defaultKeyBindings s1) key)
    by (rewrite C; intros key []).
  destruct (reset_all_settled beh s1 byName Ed1 Hsettled1)
    as (s2 & E2 & V2 & D2 & O2 & Ed2).
  rewrite E2. cbn [fst snd].
  repeat split; try congruence.
Qed.

Lemma reset_twice_idempotent_witness :
  changed_by (Flag false) (value_reset store_save_a) = ["a"]
  /\ value (snd (reset quiet [] store_save_a))
     = [("save", JObj [("key", JStr "Ctrl-S")]); ("a", JNum 1)]
  /\ value (snd (reset quiet [] (snd (reset quiet [] store_save_a))))
     = [("save", JObj [("key", JStr "Ctrl-S")]); ("a", JNum 1)]
  /\ changed_by (Flag false)
       (value_reset (snd (reset quiet [] store_save_a)))
     = [].
Proof.
  split; [reflexivity|].
  assert (Hsettled : forall key,
             In key (changed_by (Flag false) (value_reset store_save_a)) ->
             settled [("save", JObj [("name", JStr "save")])]
                     (defaultKeyBindings store_save_a) key)
    by (intros key [<-|[]]; reflexivity).
  destruct (reset_twice_idempotent quiet store_save_a
              [("save", JObj [("name", JStr "save")])] eq_refl Hsettled)
    as (_ & V1 & _ & V2 & _ & C).
  split; [rewrite V1; reflexivity|].
  split; [rewrite V2; reflexivity | exact C].
Defined.

(** ** Order of dispatch *)

Lemma dispatch_log beh ph (keys : list string) :
  forall acc s,
  exists blocks,
    List.length blocks = List.length keys
    /\ log (dispatch beh ph keys acc s)
       = log s ++ flat_calls ph (value s) keys blocks
    /\ Forall (fun b => exists rest, b = acc ++ rest) blocks.
Proof.
  induction keys as [|k keys IH]; intros acc s.
  - exists []. simpl. unfold flat_calls. simpl. rewrite app_nil_r. auto.
  - simpl.
    set (acc' := match Reg.lookup (event_name ph k) (on_ s) with
                 | Some listeners => acc ++ listeners
                 | None => acc
                 end).
    assert (Hacc : exists rest, acc' = acc ++ rest).
    { unfold acc'. destruct (Reg.lookup (event_name ph k) (on_ s)) as [ls|].
      - now exists ls.
      - exists []. now rewrite app_nil_r. }
    destruct (invoke_all_spec beh ph k acc' s) as [D L].
    destruct (IH acc' (invoke_all beh ph k acc' s)) as (blocks & Hlen & Hlog & Hpre).
    exists (acc' :: blocks). split; [simpl; now rewrite Hlen|]. split.
    + rewrite Hlog, L. destruct D as (_ & _ & -> & _).
      unfold flat_calls. simpl. now rewrite <- app_assoc.
    + constructor; [exact Hacc|].
      destruct Hacc as [r ->].
      eapply Forall_impl; [|exact Hpre].
      intros b [rest ->]. exists (r ++ rest). now rewrite app_assoc.
Qed.

Lemma call_quiet beh e cb arg s :
  all_quiet beh -> call beh e cb arg s = emit e s.
Proof. intros Hq. unfold call. rewrite Hq. simpl. now destruct s. Qed.

Lemma invoke_all_quiet beh ph key (ls : list Listener) :
  all_quiet beh ->
  forall s, on_ (invoke_all beh ph key ls s) = on_ s.
Proof.
  intros Hq. unfold invoke_all. induction ls as [|cb ls IH]; intros s; simpl;
    [reflexivity|].
  rewrite IH. now rewrite call_quiet.
Qed.



Lemma apply_key_log byName s key :
  exists evs, log (apply_key byName s key) = log s ++ evs
              /\ forallb is_sync_event evs = true.
Proof.
  unfold apply_key.
  destruct (negb (truthy (Obj.read key byName))
            || negb (truthy (Obj.read key (value s)))).
  - exists []. now rewrite app_nil_r.
  - destruct (truthy (shortcut_key (Obj.read key (value s))));
      [destruct (is_shared key s)|];
      (eexists [EvAddCommand _]; split; [reflexivity | reflexivity]).
Qed.

Lemma apply_keys_log byName (keys : list string) :
  forall s, exists evs,
      log (fold_left (apply_key byName) keys s) = log s ++ evs
      /\ forallb is_sync_event evs = true.
Proof.
  induction keys as [|k keys IH]; intros s; simpl.
  - exists []. now rewrite app_nil_r.
  - destruct (apply_key_log byName s k) as (e1 & L1 & F1).
    destruct (IH (apply_key byName s k)) as (e2 & L2 & F2).
    exists (e1 ++ e2). rewrite L2, L1, <- app_assoc. split; [reflexivity|].
    rewrite forallb_app, F1, F2. reflexivity.
Qed.

Lemma apply_keys_on byName (keys : list string) :
  forall s, on_ (fold_left (apply_key byName) keys s) = on_ s.
Proof.
  induction keys as [|k keys IH]; intros s; simpl; [reflexivity|].
  rewrite IH. unfold apply_key.
  destruct (negb (truthy (Obj.read k byName))
            || negb (truthy (Obj.read k (value s)))); [reflexivity|].
  destruct (truthy (shortcut_key (Obj.read k (value s)))); [|reflexivity].
  destruct (is_shared k s); reflexivity.
Qed.

Lemma save_log s :
  exists evs, log (save s) = log s ++ evs ++ [EvWriteFile (json (JObj (value s)))]
              /\ forallb is_sync_event evs = true.
Proof.
  unfold save. destruct (file s).
  - exists []. now split.
  - exists [EvCreateFile]. simpl. rewrite <- app_assoc. now split.
Qed.

(** The order of events of an [update] call that persists, on a store
    with an editor recorded. *)
Lemma update_order_with_editor (beh : Behaviour) (p : Patch) (showToast : bool)
    (s : Store) (byName : BindingMap) (Heditor : editor s = Some byName) :
  exists (s' : Store) (before after : list (list Listener)) (mid : list Event),
    update beh p showToast true s = (Ok, s')
    /\ List.length before = List.length (changed_by p s)
    /\ List.length after = List.length (changed_by p s)
    /\ Forall (fun b => exists rest, b = Reg.list_of "update" (on_ s) ++ rest)
              before
    /\ Forall (fun b => exists rest,
                   b = Reg.list_of "update:after" (on_ s) ++ rest) after
    /\ forallb is_sync_event mid = true
    /\ log s'
       = log s
         ++ flat_calls Before (value (patched p s)) (changed_by p s) before
         ++ mid
         ++ [EvWriteFile (json (JObj (value s')))]
         ++ (if toast_flag p showToast then [EvToast] else [])
         ++ flat_calls After (value s') (changed_by p s) after
    /\ file s' = Some (json (JObj (value s')))
    /\ oldKeyBindings s' = Some (value s').
Proof.
  rewrite (update_shape beh p showToast true s byName Heditor). cbv beta.
  fold (toast_flag p showToast).
  set (changed := changed_by p s).
  destruct (dispatch_log beh Before changed (Reg.list_of "update" (on_ s))
              (patched p s)) as (before & Lb & Hb & Pb).
  set (s2 := dispatch beh Before changed (Reg.list_of "update" (on_ s))
                      (patched p s)) in *.
  destruct (apply_keys_log byName changed s2) as (mid1 & H3 & F1).
  set (s3 := fold_left (apply_key byName) changed s2) in *.
  destruct (save_log s3) as (mid2 & H4 & F2).
  destruct (save_value s3) as (V4 & _ & O4 & Fl4).
  set (s5 := if toast_flag p showToast then emit EvToast (save s3) else save s3).
  assert (H5 : log s5 = log (save s3)
                       ++ (if toast_flag p showToast then [EvToast] else [])
               /\ value s5 = value s3 /\ file s5 = file (save s3)
               /\ oldKeyBindings s5 = oldKeyBindings (save s3)).
  { unfold s5. destruct (toast_flag p showToast); simpl;
      [|rewrite app_nil_r]; repeat split; exact V4. }
  destruct H5 as (L5 & V5 & Fl5 & O5).
  destruct (dispatch_log beh After changed (Reg.list_of "update:after" (on_ s)) s5)
    as (after & La & Ha & Pa).
  destruct (dispatch_same_data beh After changed
              (Reg.list_of "update:after" (on_ s)) s5)
    as (_ & _ & V6 & O6 & _ & _ & Fl6).
  set (s6 := dispatch beh After changed (Reg.list_of "update:after" (on_ s)) s5) in *.
  destruct (patched_rest p s) as (_ & _ & _ & _ & _ & Lp).
  exists s6, before, after, (mid1 ++ mid2).
  split; [reflexivity|]. split; [exact Lb|]. split; [exact La|].
  split; [exact Pb|]. split; [exact Pa|].
  split; [rewrite forallb_app, F1, F2; reflexivity|].
  split; [|split].
  - rewrite Ha, L5, H4, H3, Hb, Lp, V6, V5. now rewrite <- !app_assoc.
  - rewrite Fl6, Fl5, Fl4, V6, V5. reflexivity.
  - rewrite O6, O5, O4, V6, V5. reflexivity.
Qed.

(** Without an editor recorded, [applyBindings] throws after the first
    loop: nothing is written and no call of the second loop is made. *)
Lemma update_order_without_editor (beh : Behaviour) (p : Patch)
    (showToast saveFile : bool) (s : Store) :
  editor s = None ->
  exists (s' : Store) (before : list (list Listener)),
    update beh p showToast saveFile s = (Threw, s')
    /\ List.length before = List.length (changed_by p s)
    /\ log s'
       = log s ++ flat_calls Before (value (patched p s)) (changed_by p s) before
    /\ file s' = file s
    /\ oldKeyBindings s' = oldKeyBindings s.
Proof.
  intros He. unfold update. fold (patched p s). fold (changed_by p s).
  destruct (dispatch_log beh Before (changed_by p s) (Reg.list_of "update" (on_ s))
              (patched p s)) as (before & Lb & Hb & _).
  destruct (dispatch_same_data beh Before (changed_by p s)
              (Reg.list_of "update" (on_ s)) (patched p s))
    as (_ & _ & _ & O & E & _ & F).
  destruct (patched_rest p s) as (Op & _ & _ & Ep & Fp & Lp).
  unfold applyBindings. rewrite E, Ep, He.
  eexists. exists before. split; [reflexivity|]. split; [exact Lb|].
  split; [now rewrite Hb, Lp|]. split; congruence.
Qed.




(** ** Snapshot of the generic lists *)

Lemma reg_lookup_set_same ev ls r : Reg.lookup ev (Reg.set ev ls r) = Some ls.
Proof.
  induction r as [|[ev' ls'] r IH]; simpl.
  - now rewrite String.eqb_refl.
  - destruct (String.eqb_spec ev ev') as [->|Hne]; simpl.
    + now rewrite String.eqb_refl.
    + apply String.eqb_neq in Hne. now rewrite Hne.
Qed.

Lemma reg_lookup_set_other ev ev' ls r :
  ev <> ev' -> Reg.lookup ev' (Reg.set ev ls r) = Reg.lookup ev' r.
Proof.
  intros Hne. induction r as [|[ev0 ls0] r IH]; simpl.
  - destruct (String.eqb_spec ev' ev); [congruence | reflexivity].
  - destruct (String.eqb_spec ev ev0) as [->|Hne0]; simpl.
    + destruct (String.eqb_spec ev' ev0); [congruence | reflexivity].
    + now rewrite IH.
Qed.

Lemma string_eqb_length (a : string) :
  forall b, String.eqb a b = true -> String.length a = String.length b.
Proof.
  intros b H. apply String.eqb_eq in H. now subst.
Qed.

Lemma append_length (a b : string) :
  String.length (String.append a b) = String.length a + String.length b.
Proof. induction a as [|c a IH]; simpl; [reflexivity | now rewrite IH]. Qed.

(** No key-specific event of the second loop is a generic event; one of
    the first loop is generic only for a key named after. *)
Lemma event_name_specific (ph : Phase) (key : string) :
  (ph = Before -> key <> "after") -> is_generic (event_name ph key) = false.
Proof.
  intros H. unfold is_generic. apply orb_false_iff. split.
  - destruct (String.eqb (event_name ph key) "update") eqn:E; [|reflexivity].
    apply string_eqb_length in E. destruct ph; simpl in E;
      repeat rewrite append_length in E; simpl in E; lia.
  - destruct ph; simpl.
    + apply String.eqb_neq. now apply H.
    + destruct (String.eqb (String.append key ":after") "after") eqn:E;
        [|reflexivity].
      apply string_eqb_length in E. rewrite append_length in E. simpl in E. lia.
Qed.

Lemma run_action_agree (a : Action) (r r' : Registry) :
  agree_specific r r' ->
  agree_specific (run_action r a)
                 (if negb (is_generic (action_event a))
                  then run_action r' a else r').
Proof.
  intros H ev Hev.
  destruct (is_generic (action_event a)) eqn:G; simpl.
  - rewrite (H ev Hev).
    assert (Hne : action_event a <> ev) by (intros E; rewrite E in G; congruence).
    destruct a; simpl in *; unfold reg_on, reg_off;
      now rewrite reg_lookup_set_other.
  - assert (L : Reg.list_of (action_event a) r' = Reg.list_of (action_event a) r).
    { unfold Reg.list_of. now rewrite (H _ G). }
    destruct (String.eqb_spec (action_event a) ev) as [<-|Hne].
    + destruct a; simpl in *; unfold reg_on, reg_off;
        rewrite !reg_lookup_set_same, L; reflexivity.
    + destruct a; simpl in *; unfold reg_on, reg_off;
        rewrite !reg_lookup_set_other by exact Hne; now apply H.
Qed.

Lemma run_actions_agree (acts : list Action) :
  forall r r',
    agree_specific r r' ->
    agree_specific
      (fold_left run_action acts r)
      (fold_left run_action
                 (filter (fun a => negb (is_generic (action_event a))) acts) r').
Proof.
  induction acts as [|a acts IH]; intros r r' H; simpl; [exact H|].
  pose proof (run_action_agree a r r' H) as Ha.
  destruct (negb (is_generic (action_event a))); simpl; now apply IH.
Qed.

Lemma same_but_generic_refl s : same_but_generic s s.
Proof. exists (on_ s). split; [now destruct s | now intros ev _]. Qed.

Lemma call_generic beh e cb arg s s' :
  same_but_generic s s' ->
  same_but_generic (call beh e cb arg s) (call (without_generic beh) e cb arg s').
Proof.
  intros (r' & -> & A).
  exists (fold_left run_action (without_generic beh cb arg) r').
  split; [reflexivity|]. simpl. now apply run_actions_agree.
Qed.

Lemma same_but_generic_value s s' : same_but_generic s s' -> value s' = value s.
Proof. now intros (r' & -> & _). Qed.

Lemma invoke_all_generic beh ph key (ls : list Listener) :
  forall s s',
    same_but_generic s s' ->
    same_but_generic (invoke_all beh ph key ls s)
                     (invoke_all (without_generic beh) ph key ls s').
Proof.
  unfold invoke_all. induction ls as [|cb ls IH]; intros s s' H; simpl; [exact H|].
  apply IH. rewrite (same_but_generic_value s s' H). now apply call_generic.
Qed.

Lemma dispatch_generic beh ph (keys : list string) :
  (ph = Before -> ~ In "after" keys) ->
  forall acc s s',
    same_but_generic s s' ->
    same_but_generic (dispatch beh ph keys acc s)
                     (dispatch (without_generic beh) ph keys acc s').
Proof.
  induction keys as [|k keys IH]; intros Hk acc s s' H; simpl; [exact H|].
  assert (L : Reg.lookup (event_name ph k) (on_ s')
              = Reg.lookup (event_name ph k) (on_ s)).
  { destruct H as (r' & -> & A). simpl. apply A. apply event_name_specific.
    intros Hph E. apply (Hk Hph). left. now symmetry. }
  rewrite L. apply IH.
  - intros Hph Hin. apply (Hk Hph). now right.
  - now apply invoke_all_generic.
Qed.

Lemma apply_keys_with_on byName (keys : list string) r :
  forall s, fold_left (apply_key byName) keys (with_on r s)
            = with_on r (fold_left (apply_key byName) keys s).
Proof.
  induction keys as [|k keys IH]; intros s; simpl; [reflexivity|].
  rewrite <- IH. f_equal. unfold apply_key, is_shared.
  change (value (with_on r s)) with (value s).
  change (shared (with_on r s)) with (shared s).
  destruct (negb (truthy (Obj.read k byName))
            || negb (truthy (Obj.read k (value s)))); [reflexivity|].
  destruct (truthy (shortcut_key (Obj.read k (value s)))); [|reflexivity].
  destruct (existsb (String.eqb k) (shared s)); reflexivity.
Qed.

Lemma save_with_on r s : save (with_on r s) = with_on r (save s).
Proof. unfold save. simpl. destruct (file s); reflexivity. Qed.

(** The outcome, the events and the data of an [update] call do not
    depend on what its callbacks do to the two generic lists, as long
    as no changed key is named after. *)
Lemma update_generic_snapshot beh (p : Patch) (showToast saveFile : bool) (s : Store) :
  ~ In "after" (changed_by p s) ->
  fst (update (without_generic beh) p showToast saveFile s)
  = fst (update beh p showToast saveFile s)
  /\ same_but_generic (snd (update beh p showToast saveFile s))
                      (snd (update (without_generic beh) p showToast saveFile s)).
Proof.
  intros Hk. unfold update. fold (patched p s). fold (changed_by p s).
  fold (toast_flag p showToast).
  pose proof (dispatch_generic beh Before (changed_by p s) (fun _ => Hk)
                (Reg.list_of "update" (on_ s)) (patched p s) (patched p s)
                (same_but_generic_refl _)) as H2.
  destruct H2 as (r2 & -> & A2).
  set (s2 := dispatch beh Before (changed_by p s) _ (patched p s)) in *.
  unfold applyBindings. simpl. destruct (editor s2) as [byName|]; simpl.
  - split; [reflexivity|].
    apply dispatch_generic; [discriminate|].
    rewrite apply_keys_with_on.
    set (s3 := fold_left (apply_key byName) (changed_by p s) s2).
    exists r2. split; [|].
    + destruct saveFile; [rewrite save_with_on|];
        destruct (toast_flag p showToast); reflexivity.
    + assert (O : forall x, on_ (if toast_flag p showToast
                                 then emit EvToast x else x) = on_ x)
        by (intros x; now destruct (toast_flag p showToast)).
      rewrite O.
      assert (O3 : on_ s3 = on_ s2).
      { unfold s3. apply apply_keys_on. }
      destruct saveFile.
      * assert (Os : on_ (save s3) = on_ s3)
          by (unfold save; destruct (file s3); reflexivity).
        now rewrite Os, O3.
      * now rewrite O3.
  - split; [reflexivity|]. exists r2. now split.
Qed.

(** C10, as stated, fails for a binding named after, whose
    key-specific event [update:after] is the generic event of the
    second loop: callback 5, registered for [update:after] by callback
    1 while a is dispatched, is not in either list when the call
    starts, yet it runs in that call, for the key after; it does not
    run when the registration is left out. *)
Lemma generic_snapshot_key_named_after :
  ~ In 5 (Reg.list_of "update" (on_ store_after)
          ++ Reg.list_of "update:after" (on_ store_after))
  /\ log (snd (update registering_after
                      (Fields [("a", JNum 2); ("after", JNum 3)])
                      true true store_after))
     = log store_after
       ++ [EvUpdate "a" 1 (JNum 2);
           EvUpdate "after" 1 (JNum 3); EvUpdate "after" 5 (JNum 3);
           EvWriteFile (JObj [("a", JNum 2); ("after", JNum 3)]); EvToast]
  /\ log (snd (update registering_after
                      (Fields [("a", JNum 2); ("after", JNum 3)])
                      true true store_after))
     <> log (snd (update (without_generic registering_after)
                         (Fields [("a", JNum 2); ("after", JNum 3)])
                         true true store_after)).
Proof.
  split; [|split].
  - simpl. intros [E|[]]. discriminate E.
  - reflexivity.
  - intros E. discriminate E.
Qed.

(** C10, amended: in an [update] call none of whose changed keys is
    named after, the outcome, the events and the data are the same
    whether or not the callbacks' [on] and [off] calls on [update] and
    [update:after] take place: the generic callbacks that run are those
    listed when the call starts.  The list of a key-specific event is
    read from the registry as it is when the key's turn comes: the
    callbacks that ran for earlier keys have had their effect on it.
    With callback 1 registering 3 for [update:c], 4 for [update], 5 for
    [update:after] and 6 for [update:c:after] while a is dispatched, 3
    and 6 run for c in the same call and 4 and 5 do not run. *)
Theorem update_generic_lists_snapshotted (beh : Behaviour) (p : Patch)
    (showToast saveFile : bool) (s : Store)
    (Hkeys : ~ In "after" (changed_by p s)) :
  (fst (update (without_generic beh) p showToast saveFile s)
   = fst (update beh p showToast saveFile s)
   /\ log (snd (update (without_generic beh) p showToast saveFile s))
      = log (snd (update beh p showToast saveFile s))
   /\ same_data (snd (update beh p showToast saveFile s))
                (snd (update (without_generic beh) p showToast saveFile s)))
  /\ (forall ph key rest acc st,
        dispatch beh ph (key :: rest) acc st
        = dispatch beh ph rest
            (acc ++ Reg.list_of (event_name ph key) (on_ st))
            (invoke_all beh ph key
               (acc ++ Reg.list_of (event_name ph key) (on_ st)) st))
  /\ log (snd (update registering (Fields [("a", JNum 2); ("c", JNum 3)])
                      true true store_ac))
     = log store_ac
       ++ [EvUpdate "a" 1 (JNum 2); EvUpdate "a" 2 (JNum 2);
           EvUpdate "c" 1 (JNum 3); EvUpdate "c" 2 (JNum 3);
           EvUpdate "c" 3 (JNum 3);
           EvWriteFile (JObj [("a", JNum 2); ("c", JNum 3)]); EvToast;
           EvUpdateAfter "c" 6 (JNum 3); EvUpdateAfter "c" 6 (JNum 3)].
Proof.
  split; [|split; [|reflexivity]].
  - destruct (update_generic_snapshot beh p showToast saveFile s Hkeys)
      as (E & r' & -> & _).
    split; [exact E|]. split; [reflexivity | repeat split].
  - intros ph key rest acc st. simpl. unfold Reg.list_of.
    destruct (Reg.lookup (event_name ph key) (on_ st)); [reflexivity|].
    now rewrite app_nil_r.
Qed.

Lemma update_generic_lists_snapshotted_witness :
  ~ In "after" (changed_by (Fields [("a", JNum 2); ("c", JNum 3)]) store_ac)
  /\ log (snd (update (without_generic registering)
                      (Fields [("a", JNum 2); ("c", JNum 3)]) true true store_ac))
     = log (snd (update registering
                        (Fields [("a", JNum 2); ("c", JNum 3)]) true true store_ac)).
Proof.
  assert (H : ~ In "after"
                (changed_by (Fields [("a", JNum 2); ("c", JNum 3)]) store_ac)).
  { simpl. intros [E|[E|[]]]; discriminate E. }
  split; [exact H|].
  exact (proj1 (proj2 (proj1 (update_generic_lists_snapshotted registering
                  (Fields [("a", JNum 2); ("c", JNum 3)]) true true store_ac H)))).
Defined.

(** * Further properties of the store *)

(** ** What a call keeps of the bookkeeping fields *)

Lemma update_bookkeeping beh p showToast saveFile s :
  initialized (snd (update beh p showToast saveFile s)) = initialized s
  /\ editor (snd (update beh p showToast saveFile s)) = editor s.
Proof.
  unfold update. fold (patched p s). fold (changed_by p s).
  fold (toast_flag p showToast).
  destruct (dispatch_same_data beh Before (changed_by p s)
              (Reg.list_of "update" (on_ s)) (patched p s))
    as (I2 & _ & _ & _ & E2 & _).
  set (s2 := dispatch beh Before (changed_by p s) _ (patched p s)) in *.
  assert (P : initialized (patched p s) = initialized s
              /\ editor (patched p s) = editor s).
  { destruct p as [| |m]; simpl; try (split; reflexivity).
    destruct (patch_fold_rest m (Obj.keys m) s) as (_ & _ & _ & E & _ & _ & I).
    unfold apply_patch. now split. }
  destruct P as [Ip Ep].
  unfold applyBindings. destruct (editor s2) as [byName|] eqn:Ed; simpl.
  - destruct (apply_keys_frame byName (changed_by p s) s2) as (I3 & _ & E3 & _).
    set (s3 := fold_left (apply_key byName) (changed_by p s) s2) in *.
    match goal with
    | |- context [dispatch beh After ?k ?a ?x] =>
        destruct (dispatch_same_data beh After k a x) as (I6 & _ & _ & _ & E6 & _);
        rewrite I6, E6
    end.
    assert (S : initialized (save s3) = initialized s3 /\ editor (save s3) = editor s3)
      by (unfold save; destruct (file s3); split; reflexivity).
    destruct S as [Is Es].
    destruct saveFile, (toast_flag p showToast); unfold emit;
      cbn [initialized editor]; split; congruence.
  - split; congruence.
Qed.

Lemma reset_keys_bookkeeping (keyBindings : list string) :
  forall s,
    let s' := reset_keys keyBindings s in
    initialized s' = initialized s /\ editor s' = editor s
    /\ oldKeyBindings s' = oldKeyBindings s /\ file s' = file s
    /\ on_ s' = on_ s /\ log s' = log s
    /\ defaultKeyBindings s' = defaultKeyBindings s.
Proof.
  unfold reset_keys.
  induction keyBindings as [|k ks IH]; intros s; simpl; [repeat split|].
  match goal with |- context [fold_left _ ks ?st] =>
    destruct (IH st) as (A & B & C & D & E & F & G) end.
  rewrite A, B, C, D, E, F, G.
  destruct (negb (Obj.has k (defaultKeyBindings s))); repeat split.
Qed.

Lemma reset_bookkeeping beh (keyBindings : list string) s :
  initialized (snd (reset beh keyBindings s)) = initialized s
  /\ editor (snd (reset beh keyBindings s)) = editor s.
Proof.
  unfold reset.
  set (s1 := match keyBindings with
             | [] => value_reset s
             | _ => reset_keys keyBindings s
             end).
  assert (H1 : initialized s1 = initialized s /\ editor s1 = editor s).
  { unfold s1. destruct keyBindings as [|k ks]; [now split|].
    destruct (reset_keys_bookkeeping (k :: ks) s) as (A & B & _). now split. }
  destruct (update_bookkeeping beh (Flag false) true true s1) as [I E].
  destruct (update beh (Flag false) true true s1) as [[] s2]; simpl in *.
  - destruct (fire_reset_same_data beh (List.length (Reg.list_of "reset" (on_ s2))) 0 s2)
      as (If & _ & _ & _ & Ef & _).
    destruct H1. split; congruence.
  - destruct H1. split; congruence.
Qed.

(** ** Initialisation *)

Lemma init_initialized beh ed s : initialized (snd (init beh ed s)) = true.
Proof.
  unfold init. destruct (initialized s) eqn:I; [exact I|].
  cbv zeta. change (file (with_editor ed s)) with (file s).
  destruct (file s) as [doc|] eqn:F;
    [|unfold save; simpl; rewrite F; reflexivity].
  destruct (truthy doc); [simpl|reflexivity].
  destruct (heal (defaultKeyBindings s) doc); [|reflexivity].
  now destruct (reset_bookkeeping beh [] (with_editor ed s)) as [-> _].
Qed.

(** X1: [init] takes effect once.  Whatever the first call did (first
    run, unusable document, reset over an existing document, or a
    throw), the store is marked initialised, and any later call, with
    whatever editor, returns normally and changes nothing: the editor
    recorded by the first call stays. *)
Theorem init_only_once (beh : Behaviour) (ed ed' : BindingMap) (s : Store) :
  init beh ed' (snd (init beh ed s)) = (Ok, snd (init beh ed s)).
Proof.
  unfold init at 1. now rewrite init_initialized.
Qed.

(** X2: first run.  On a store not yet initialised, with no file in
    storage, [init] creates the file, writes the current [value] to it,
    and then sets both [value] and the baseline to the defaults; the
    registry is untouched and no callback runs.  What is written is
    [value] as it was before the call, not the defaults. *)
Theorem init_first_run (beh : Behaviour) (ed : BindingMap) (s : Store)
    (Hinit : initialized s = false) (Hfile : file s = None) :
  fst (init beh ed s) = Ok
  /\ value (snd (init beh ed s)) = defaultKeyBindings s
  /\ oldKeyBindings (snd (init beh ed s)) = Some (defaultKeyBindings s)
  /\ file (snd (init beh ed s)) = Some (json (JObj (value s)))
  /\ editor (snd (init beh ed s)) = Some ed
  /\ on_ (snd (init beh ed s)) = on_ s
  /\ shared (snd (init beh ed s)) = []
  /\ log (snd (init beh ed s))
     = log s ++ [EvCreateFile; EvWriteFile (json (JObj (value s)))].
Proof.
  unfold init. rewrite Hinit. cbv zeta.
  change (file (with_editor ed s)) with (file s). rewrite Hfile.
  unfold save. change (file (with_editor ed s)) with (file s). rewrite Hfile.
  simpl. rewrite <- app_assoc. repeat split.
Qed.

Lemma init_first_run_witness :
  value (snd (init quiet [] (new_store [("a", JNum 1)] None))) = [("a", JNum 1)]
  /\ log (snd (init quiet [] (new_store [("a", JNum 1)] None)))
     = [EvCreateFile; EvWriteFile (JObj [("a", JNum 1)])].
Proof.
  destruct (init_first_run quiet [] (new_store [("a", JNum 1)] None)
              eq_refl eq_refl) as (_ & V & _ & _ & _ & _ & _ & L).
  split; [rewrite V; reflexivity | rewrite L; reflexivity].
Defined.

Lemma lookup_unique (o : BindingMap) :
  unique_keys o ->
  Forall (fun kv => Obj.get (fst kv) o = snd kv) o.
Proof.
  unfold unique_keys, Obj.get. intros H.
  apply Forall_forall. intros [k v] Hin. simpl.
  induction o as [|[k0 v0] o IH]; [contradiction|].
  simpl in *. inversion H as [|? ? Hnin Hnd]; subst.
  destruct Hin as [E|Hin].
  - inversion E; subst. now rewrite String.eqb_refl.
  - destruct (String.eqb_spec k k0) as [->|Hne]; [|now apply IH].
    exfalso. apply Hnin. change k0 with (fst (k0, v)). now apply in_map.
Qed.

Lemma heal_entries_id (defaults l : BindingMap) (doc : JsVal) :
  Forall (fun kv => snd kv <> JUndef) l ->
  Forall (fun kv => Obj.get (fst kv) defaults = snd kv) l ->
  fold_left (heal_entry defaults) l (Some doc) = Some doc.
Proof.
  induction l as [|[k v] l IH]; intros Hu Hg; [reflexivity|].
  inversion Hu as [|? ? Hv Hu']; inversion Hg as [|? ? Hk Hg']; subst.
  simpl in *. rewrite Hk, String.eqb_refl.
  destruct v; simpl; try (now apply IH). congruence.
Qed.

(** X3: the healing loop of [init] changes nothing.  When the defaults
    are a well-formed object none of whose values is [undefined], the
    loop leaves the document it is given exactly as it was read and
    never throws, whatever the document holds or lacks. *)
Theorem heal_is_identity (defaults : BindingMap) (doc : JsVal)
    (Hkeys : unique_keys defaults) (Hdef : no_undefined defaults) :
  heal defaults doc = Some doc.
Proof.
  unfold heal. apply heal_entries_id; [exact Hdef | now apply lookup_unique].
Qed.

Lemma heal_is_identity_witness :
  heal [("a", JStr "Ctrl-A"); ("b", JObj [("key", JStr "Ctrl-B")])]
       (JObj [("a", JNum 5); ("zzz", JNull)])
  = Some (JObj [("a", JNum 5); ("zzz", JNull)]).
Proof.
  apply heal_is_identity.
  - repeat constructor; simpl; intuition discriminate.
  - repeat constructor; simpl; discriminate.
Defined.

(** X4: [init] of a new store over an existing, usable document ends
    as a reset to the defaults.  The document is not applied: [value]
    and the baseline are the defaults, the defaults are written over
    the document in storage, and since a new store has no baseline and
    no callbacks, nothing else happens. *)
Theorem init_over_document (beh : Behaviour) (ed list_js : BindingMap)
    (doc : JsVal)
    (Hdoc : truthy doc = true)
    (Hkeys : unique_keys list_js) (Hdef : no_undefined list_js) :
  init beh ed (new_store list_js (Some doc))
  = (Ok, mkStore true Reg.initial list_js list_js (Some list_js) (Some ed) []
                 (Some (json (JObj list_js)))
                 [EvWriteFile (json (JObj list_js))]).
Proof.
  unfold init. cbn -[truthy heal reset]. rewrite Hdoc. cbn -[heal reset].
  unfold structuredClone. rewrite (heal_is_identity list_js doc Hkeys Hdef).
  reflexivity.
Qed.

Lemma init_over_document_witness :
  init quiet [] (new_store [("a", JNum 1)] (Some (JObj [("a", JNum 2)])))
  = (Ok, mkStore true Reg.initial [("a", JNum 1)] [("a", JNum 1)]
                 (Some [("a", JNum 1)]) (Some []) []
                 (Some (json (JObj [("a", JNum 1)])))
                 [EvWriteFile (json (JObj [("a", JNum 1)]))]).
Proof.
  apply init_over_document.
  - reflexivity.
  - repeat constructor. simpl. tauto.
  - repeat constructor. simpl. discriminate.
Defined.

(** ** Registering and unregistering callbacks *)

Lemma list_of_set_same ev ls r : Reg.list_of ev (Reg.set ev ls r) = ls.
Proof. unfold Reg.list_of. now rewrite reg_lookup_set_same. Qed.

Lemma list_of_set_other ev ev' ls r :
  ev <> ev' -> Reg.list_of ev' (Reg.set ev ls r) = Reg.list_of ev' r.
Proof. intros H. unfold Reg.list_of. now rewrite reg_lookup_set_other. Qed.

Lemma remove_first_absent cb (l : list Listener) :
  ~ In cb l -> Reg.remove_first cb l = l.
Proof.
  induction l as [|x l IH]; intros H; simpl; [reflexivity|].
  destruct (Nat.eqb_spec x cb) as [->|Hne].
  - exfalso. apply H. now left.
  - rewrite IH; [reflexivity|]. intros Hin. apply H. now right.
Qed.

Lemma remove_first_app_present cb (l l' : list Listener) :
  In cb l -> Reg.remove_first cb (l ++ l') = Reg.remove_first cb l ++ l'.
Proof.
  induction l as [|x l IH]; intros H; simpl; [contradiction|].
  destruct (Nat.eqb_spec x cb) as [->|Hne]; [reflexivity|].
  destruct H as [->|H]; [congruence|]. now rewrite IH.
Qed.

Lemma remove_first_app_absent cb (l l' : list Listener) :
  ~ In cb l -> Reg.remove_first cb (l ++ l') = l ++ Reg.remove_first cb l'.
Proof.
  induction l as [|x l IH]; intros H; simpl; [reflexivity|].
  destruct (Nat.eqb_spec x cb) as [->|Hne].
  - exfalso. apply H. now left.
  - rewrite IH; [reflexivity|]. intros Hin. apply H. now right.
Qed.

Lemma remove_first_split cb (l : list Listener) :
  In cb l ->
  exists l1 l2, l = l1 ++ cb :: l2 /\ ~ In cb l1
                /\ Reg.remove_first cb l = l1 ++ l2.
Proof.
  induction l as [|x l IH]; intros H; [contradiction|]. simpl.
  destruct (Nat.eqb_spec x cb) as [->|Hne].
  - exists [], l. simpl. auto.
  - destruct H as [->|H]; [congruence|].
    destruct (IH H) as (l1 & l2 & -> & Hn & ->).
    exists (x :: l1), l2. simpl. repeat split.
    intros [E|Hin]; [congruence | now apply Hn].
Qed.

(** X5: [on] followed by [off] of the same callback for the same
    event.  If the callback was not registered for the event, the
    event's list is restored; if it was, [off] removes the earliest
    registration and the new one stays last.  The lists of all other
    events are as before. *)
Theorem off_after_on (ev : string) (cb : Listener) (s : Store) :
  (~ In cb (Reg.list_of ev (on_ s)) ->
   Reg.list_of ev (on_ (off ev cb (on ev cb s))) = Reg.list_of ev (on_ s))
  /\ (In cb (Reg.list_of ev (on_ s)) ->
      Reg.list_of ev (on_ (off ev cb (on ev cb s)))
      = Reg.remove_first cb (Reg.list_of ev (on_ s)) ++ [cb])
  /\ (forall ev', ev <> ev' ->
        Reg.list_of ev' (on_ (off ev cb (on ev cb s)))
        = Reg.list_of ev' (on_ s)).
Proof.
  unfold off, on, reg_off, reg_on. simpl. split; [|split].
  - intros H. rewrite !list_of_set_same.
    rewrite remove_first_app_absent by exact H. simpl.
    rewrite Nat.eqb_refl. apply app_nil_r.
  - intros H. rewrite !list_of_set_same. now apply remove_first_app_present.
  - intros ev' Hne. now rewrite !list_of_set_other.
Qed.

Lemma off_after_on_witness :
  Reg.list_of "update:a" (on_ (off "update:a" 7 (on "update:a" 7 store_ac))) = [2]
  /\ Reg.list_of "update:a" (on_ (off "update:a" 2 (on "update:a" 2 store_ac)))
     = [2].
Proof.
  destruct (off_after_on "update:a" 7 store_ac) as (A & _ & _).
  destruct (off_after_on "update:a" 2 store_ac) as (_ & B & _).
  split.
  - rewrite A; [reflexivity|]. simpl. intros [E|[]]. discriminate E.
  - rewrite B; [reflexivity|]. simpl. now left.
Defined.

(** X6: [off] removes one registration and keeps the order of the
    rest.  If the callback is registered for the event, the list is
    split at its first occurrence and the two parts are joined; if it
    is not (also when the event was never used), no event's list
    changes.  Either way the other events keep their lists. *)
Theorem off_removes_first (ev : string) (cb : Listener) (s : Store) :
  (In cb (Reg.list_of ev (on_ s)) ->
   exists l1 l2,
     Reg.list_of ev (on_ s) = l1 ++ cb :: l2
     /\ ~ In cb l1
     /\ Reg.list_of ev (on_ (off ev cb s)) = l1 ++ l2)
  /\ (~ In cb (Reg.list_of ev (on_ s)) ->
      forall ev', Reg.list_of ev' (on_ (off ev cb s)) = Reg.list_of ev' (on_ s))
  /\ (forall ev', ev <> ev' ->
        Reg.list_of ev' (on_ (off ev cb s)) = Reg.list_of ev' (on_ s)).
Proof.
  unfold off, reg_off. simpl. split; [|split].
  - intros H. rewrite list_of_set_same. now apply remove_first_split.
  - intros H ev'. destruct (string_dec ev ev') as [<-|Hne].
    + rewrite list_of_set_same. now apply remove_first_absent.
    + now rewrite list_of_set_other.
  - intros ev' Hne. now rewrite list_of_set_other.
Qed.

Lemma off_removes_first_witness :
  (exists l1 l2,
      Reg.list_of "update" (on_ (on "update" 1 store_ac)) = l1 ++ 1 :: l2
      /\ ~ In 1 l1
      /\ Reg.list_of "update" (on_ (off "update" 1 (on "update" 1 store_ac)))
         = l1 ++ l2)
  /\ Reg.list_of "reset" (on_ (off "never" 9 store_ac)) = [].
Proof.
  destruct (off_removes_first "update" 1 (on "update" 1 store_ac)) as (A & _ & _).
  destruct (off_removes_first "never" 9 store_ac) as (_ & B & _).
  split.
  - apply A. simpl. now left.
  - rewrite B; [reflexivity|]. simpl. tauto.
Defined.

(** ** Update: persistence *)

(** X7: after an [update] that persists, nothing is pending.  On a
    store with an editor recorded, once [update] has run with
    [saveFile] true the baseline is [value], so the changed keys of an
    immediately following call without patch are none: that call runs
    no callback and only writes the same mapping again (and toasts if
    asked to). *)
Theorem update_persisted_nothing_pending (beh : Behaviour) (p : Patch)
    (showToast showToast' : bool) (s : Store) (byName : BindingMap)
    (Heditor : editor s = Some byName) :
  let s' := snd (update beh p showToast true s) in
  changed_by NoPatch s' = []
  /\ fst (update beh NoPatch showToast' true s') = Ok
  /\ log (snd (update beh NoPatch showToast' true s'))
     = log s' ++ [EvWriteFile (json (JObj (value s')))]
       ++ (if showToast' then [EvToast] else [])
  /\ value (snd (update beh NoPatch showToast' true s')) = value s'.
Proof.
  intros s'.
  destruct (update_order_with_editor beh p showToast s byName Heditor)
    as (s1 & before & after & mid & E & _ & _ & _ & _ & _ & _ & F & O).
  assert (Es : s' = s1) by (unfold s'; now rewrite E). rewrite Es. clear Es s'.
  assert (C : changed_by NoPatch s1 = []).
  { unfold changed_by. simpl. rewrite O. apply getChangedKeys_same. }
  split; [exact C|].
  assert (Ed : editor s1 = Some byName).
  { destruct (update_bookkeeping beh p showToast true s) as [_ X].
    rewrite E in X. simpl in X. congruence. }
  rewrite (update_shape beh NoPatch showToast' true s1 byName Ed), C.
  cbv beta. simpl. unfold save. rewrite F.
  destruct showToast'; simpl; rewrite <- ?app_assoc; repeat split.
Qed.

Lemma update_persisted_nothing_pending_witness :
  changed_by NoPatch
    (snd (update quiet (Fields [("a", JNum 2); ("c", JNum 3)]) true true store_ac))
  = [].
Proof.
  exact (proj1 (update_persisted_nothing_pending quiet
                  (Fields [("a", JNum 2); ("c", JNum 3)]) true true store_ac []
                  eq_refl)).
Defined.

(** X8: [update] with [saveFile] false leaves storage and the baseline
    alone, whatever the patch, the callbacks and the editor: the
    changes it made to [value] stay pending. *)
Theorem update_unsaved_keeps_baseline (beh : Behaviour) (p : Patch)
                                      (showToast : bool) (s : Store) :
  file (snd (update beh p showToast false s)) = file s
  /\ oldKeyBindings (snd (update beh p showToast false s)) = oldKeyBindings s.
Proof.
  unfold update. fold (patched p s). fold (changed_by p s).
  fold (toast_flag p showToast).
  destruct (patched_rest p s) as (Op & _ & _ & _ & Fp & _).
  destruct (dispatch_same_data beh Before (changed_by p s)
              (Reg.list_of "update" (on_ s)) (patched p s))
    as (_ & _ & _ & O2 & _ & _ & F2).
  set (s2 := dispatch beh Before (changed_by p s) _ (patched p s)) in *.
  unfold applyBindings. destruct (editor s2) as [byName|]; simpl.
  - destruct (apply_keys_frame byName (changed_by p s) s2) as (_ & O3 & _ & F3).
    set (s3 := fold_left (apply_key byName) (changed_by p s) s2) in *.
    match goal with
    | |- context [dispatch beh After ?k ?a ?x] =>
        destruct (dispatch_same_data beh After k a x) as (_ & _ & _ & O6 & _ & _ & F6);
        rewrite O6, F6
    end.
    destruct (toast_flag p showToast); unfold emit; cbn [file oldKeyBindings];
      split; congruence.
  - split; congruence.
Qed.

(** X9: [update] is not cut short when nothing changed.  With an
    editor recorded and no changed key, it runs no callback and
    registers no command, but still writes [value] to storage (when
    [saveFile]) and still toasts (when asked to). *)
Theorem update_without_change (beh : Behaviour) (p : Patch)
    (showToast saveFile : bool) (s : Store) (byName : BindingMap)
    (Heditor : editor s = Some byName)
    (Hnone : changed_by p s = []) :
  fst (update beh p showToast saveFile s) = Ok
  /\ value (snd (update beh p showToast saveFile s)) = value (patched p s)
  /\ on_ (snd (update beh p showToast saveFile s)) = on_ s
  /\ log (snd (update beh p showToast saveFile s))
     = log s
       ++ (if saveFile
           then (match file s with None => [EvCreateFile] | Some _ => [] end)
                ++ [EvWriteFile (json (JObj (value (patched p s))))]
           else [])
       ++ (if toast_flag p showToast then [EvToast] else []).
Proof.
  rewrite (update_shape beh p showToast saveFile s byName Heditor), Hnone.
  cbv beta. fold (toast_flag p showToast). cbn [fst snd dispatch fold_left].
  destruct (patched_rest p s) as (_ & Op & _ & _ & Fp & Lp).
  split; [reflexivity|].
  destruct saveFile, (toast_flag p showToast); unfold save; rewrite ?Fp;
    destruct (file s); simpl; rewrite ?Lp, ?Op, <- ?app_assoc, ?app_nil_r;
    repeat split.
Qed.

Lemma update_without_change_witness :
  log (snd (update quiet (Fields [("zzz", JNum 1)]) true true store_a))
  = log store_a ++ [EvWriteFile (JObj [("a", JNum 1)]); EvToast].
Proof.
  destruct (update_without_change quiet (Fields [("zzz", JNum 1)]) true true
              store_a [] eq_refl eq_refl) as (_ & _ & _ & L).
  rewrite L. reflexivity.
Defined.

(** ** Update: which callbacks are called *)

Lemma flat_calls_generic ph v (keys : list string) :
  forall (blocks : list (list Listener)) (acc : list Listener) k cb,
    List.length blocks = List.length keys ->
    Forall (fun b => exists rest, b = acc ++ rest) blocks ->
    In k keys -> In cb acc ->
    In (phase_event ph k cb (Obj.read k v)) (flat_calls ph v keys blocks).
Proof.
  unfold flat_calls.
  induction keys as [|k0 keys IH]; intros blocks acc k cb Hlen Hpre Hk Hcb;
    [contradiction|].
  destruct blocks as [|b blocks]; [discriminate|].
  inversion Hpre as [|? ? [rest ->] Hpre']; subst.
  simpl. apply in_or_app. destruct Hk as [->|Hk].
  - left. unfold calls_for.
    apply (in_map (fun cb0 => phase_event ph k cb0 (Obj.read k v))).
    apply in_or_app. now left.
  - right. apply (IH blocks acc); auto.
Qed.

(** X10: fan-out of the generic callbacks.  Every callback that is in
    the [update] list when the call starts is called for every changed
    key, with that key's value after the patch, whether or not an
    editor is recorded.  With an editor recorded and [saveFile] true,
    every callback that is in the [update:after] list when the call
    starts is likewise called for every changed key, with that key's
    value in the final mapping. *)
Theorem update_generic_fan_out (beh : Behaviour) (p : Patch)
    (showToast : bool) (s : Store) (key : string)
    (Hkey : In key (changed_by p s)) :
  (forall saveFile cb,
      In cb (Reg.list_of "update" (on_ s)) ->
      In (EvUpdate key cb (Obj.read key (value (patched p s))))
         (log (snd (update beh p showToast saveFile s))))
  /\ (forall byName cb,
        editor s = Some byName ->
        In cb (Reg.list_of "update:after" (on_ s)) ->
        In (EvUpdateAfter key cb
              (Obj.read key (value (snd (update beh p showToast true s)))))
           (log (snd (update beh p showToast true s)))).
Proof.
  split.
  - intros saveFile cb Hcb.
    assert (H2 : exists tail,
               log (snd (update beh p showToast saveFile s))
               = (log (dispatch beh Before (changed_by p s)
                                (Reg.list_of "update" (on_ s)) (patched p s)))
                 ++ tail).
    { unfold update. fold (patched p s). fold (changed_by p s).
      fold (toast_flag p showToast).
      set (s2 := dispatch beh Before (changed_by p s) _ (patched p s)).
      unfold applyBindings. destruct (editor s2) as [byName|]; simpl.
      - destruct (apply_keys_log byName (changed_by p s) s2) as (m1 & L3 & _).
        set (s3 := fold_left (apply_key byName) (changed_by p s) s2) in *.
        match goal with
        | |- context [dispatch beh After ?k ?a ?x] =>
            destruct (dispatch_log beh After k a x) as (bl & _ & L6 & _);
            rewrite L6
        end.
        destruct saveFile; [destruct (save_log s3) as (m2 & L4 & _)|];
          destruct (toast_flag p showToast); unfold emit; cbn [log];
          rewrite ?L4, L3, <- ?app_assoc; eexists; reflexivity.
      - exists []. now rewrite app_nil_r. }
    destruct H2 as [tail ->].
    destruct (dispatch_log beh Before (changed_by p s)
                (Reg.list_of "update" (on_ s)) (patched p s))
      as (blocks & Hlen & -> & Hpre).
    apply in_or_app. left. apply in_or_app. right.
    now apply (flat_calls_generic Before _ _ blocks (Reg.list_of "update" (on_ s))).
  - intros byName cb He Hcb.
    destruct (update_order_with_editor beh p showToast s byName He)
      as (s1 & before & after & mid & E & _ & La & _ & Pa & _ & L & _ & _).
    rewrite E. simpl. rewrite L.
    do 5 (apply in_or_app; right).
    now apply (flat_calls_generic After _ _ after
                 (Reg.list_of "update:after" (on_ s))).
Qed.

Lemma update_generic_fan_out_witness :
  In (EvUpdate "c" 1 (JNum 3))
     (log (snd (update quiet (Fields [("a", JNum 2); ("c", JNum 3)])
                       true false store_ac))).
Proof.
  assert (Hkey : In "c" (changed_by (Fields [("a", JNum 2); ("c", JNum 3)])
                                    store_ac)).
  { simpl. right. now left. }
  apply (proj1 (update_generic_fan_out quiet
                  (Fields [("a", JNum 2); ("c", JNum 3)]) true store_ac "c" Hkey)
               false 1).
  simpl. now left.
Defined.

(** ** Reset: the [reset] callbacks *)

Lemma run_actions_extend ev (acts : list Action) :
  (forall cb', ~ In (ActOff ev cb') acts) ->
  forall r, exists extra,
      Reg.list_of ev (fold_left run_action acts r) = Reg.list_of ev r ++ extra.
Proof.
  induction acts as [|a acts IH]; intros H r; simpl.
  - exists []. now rewrite app_nil_r.
  - destruct (IH (fun cb' Hin => H cb' (or_intror Hin)) (run_action r a))
      as [extra ->].
    assert (E : exists e1, Reg.list_of ev (run_action r a) = Reg.list_of ev r ++ e1).
    { destruct a as [ev0 cb0|ev0 cb0]; simpl; unfold reg_on, reg_off;
        destruct (string_dec ev0 ev) as [->|Hne].
      - rewrite list_of_set_same. now exists [cb0].
      - rewrite list_of_set_other by exact Hne. exists []. now rewrite app_nil_r.
      - exfalso. apply (H cb0). now left.
      - rewrite list_of_set_other by exact Hne. exists []. now rewrite app_nil_r. }
    destruct E as [e1 ->]. exists (e1 ++ extra). now rewrite app_assoc.
Qed.

Lemma skipn_nth_cons {A : Type} (l : list A) :
  forall i x, nth_error l i = Some x -> skipn i l = x :: skipn (S i) l.
Proof.
  induction l as [|y l IH]; intros [|i] x H; simpl in *; try discriminate.
  - now inversion H.
  - now apply IH.
Qed.

Lemma fire_reset_calls beh (l : list Listener) :
  never_off "reset" beh ->
  forall n i s extra,
    Reg.list_of "reset" (on_ s) = l ++ extra ->
    i + n = List.length l ->
    log (fire_reset beh n i s) = log s ++ reset_calls (value s) (skipn i l).
Proof.
  intros Hoff. induction n as [|n IH]; intros i s extra Hl Hi; simpl.
  - replace i with (List.length l) by lia.
    rewrite skipn_all. simpl. now rewrite app_nil_r.
  - assert (Hlt : i < List.length l) by lia.
    rewrite Hl, nth_error_app1 by exact Hlt.
    destruct (nth_error l i) as [cb|] eqn:Hn;
      [|apply nth_error_None in Hn; lia].
    set (s1 := call beh (EvReset cb (JObj (value s))) cb (JObj (value s)) s).
    destruct (run_actions_extend "reset" (beh cb (JObj (value s)))
                (fun cb' => Hoff cb (JObj (value s)) cb') (on_ s)) as [e1 He1].
    rewrite (IH (S i) s1 (extra ++ e1)).
    + unfold s1 at 1 2. rewrite call_log. simpl.
      rewrite <- app_assoc. f_equal.
      rewrite (skipn_nth_cons l i cb Hn). reflexivity.
    + unfold s1. simpl. rewrite He1, Hl. now rewrite app_assoc.
    + lia.
Qed.

(** X11: which [reset] callbacks a [reset] call runs.  On a store
    with an editor recorded, and with callbacks that never call
    [off("reset")], [reset] returns normally and, after the whole
    [update] protocol, calls exactly the callbacks that are in the
    [reset] list when [update] has finished, once each and in
    registration order, each with the full current mapping.  A callback
    registered for [reset] while these run is not called in this
    round. *)
Theorem reset_fires_listeners (beh : Behaviour) (keyBindings : list string)
    (s : Store) (byName : BindingMap)
    (Heditor : editor s = Some byName)
    (Hoff : never_off "reset" beh) :
  let s1 := match keyBindings with
            | [] => value_reset s
            | _ => reset_keys keyBindings s
            end in
  let s2 := snd (update beh (Flag false) true true s1) in
  fst (reset beh keyBindings s) = Ok
  /\ log (snd (reset beh keyBindings s))
     = log s2 ++ reset_calls (value s2) (Reg.list_of "reset" (on_ s2))
  /\ value (snd (reset beh keyBindings s)) = value s2.
Proof.
  intros s1 s2. unfold reset. fold s1.
  assert (E1 : editor s1 = Some byName).
  { unfold s1. destruct keyBindings as [|k ks]; [exact Heditor|].
    destruct (reset_keys_bookkeeping (k :: ks) s) as (_ & E & _). congruence. }
  unfold s2. rewrite (update_shape beh (Flag false) true true s1 byName E1).
  cbv beta. cbn [fst snd].
  match goal with |- context [fire_reset beh _ 0 ?x] => set (s3 := x) end.
  split; [reflexivity|]. split.
  - rewrite (fire_reset_calls beh (Reg.list_of "reset" (on_ s3)) Hoff
               (List.length (Reg.list_of "reset" (on_ s3))) 0 s3 []).
    + reflexivity.
    + now rewrite app_nil_r.
    + reflexivity.
  - now destruct (fire_reset_same_data beh
                    (List.length (Reg.list_of "reset" (on_ s3))) 0 s3)
      as (_ & _ & V & _).
Qed.

Lemma reset_fires_listeners_witness :
  log (snd (reset quiet [] (on "reset" 8 (on "reset" 9 store_a_saved))))
  = log (snd (update quiet (Flag false) true true
                     (value_reset (on "reset" 8 (on "reset" 9 store_a_saved)))))
    ++ [EvReset 9 (JObj [("a", JNum 1)]); EvReset 8 (JObj [("a", JNum 1)])].
Proof.
  assert (Hoff : never_off "reset" quiet) by (intros cb arg cb' H; exact H).
  destruct (reset_fires_listeners quiet []
              (on "reset" 8 (on "reset" 9 store_a_saved)) [] eq_refl Hoff)
    as (_ & L & _).
  rewrite L. reflexivity.
Defined.

Lemma fire_reset_quiet beh (l : list Listener) :
  (forall cb arg, In cb l -> beh cb arg = []) ->
  forall n i s,
    Reg.list_of "reset" (on_ s) = l ->
    log (fire_reset beh n i s)
    = log s ++ reset_calls (value s) (firstn n (skipn i l)).
Proof.
  intros Hq. induction n as [|n IH]; intros i s Hl; simpl.
  - now rewrite app_nil_r.
  - rewrite Hl. destruct (nth_error l i) as [cb|] eqn:Hn.
    + rewrite (skipn_nth_cons l i cb Hn). simpl.
      assert (Hc : call beh (EvReset cb (JObj (value s))) cb (JObj (value s)) s
                   = emit (EvReset cb (JObj (value s))) s).
      { unfold call. rewrite (Hq cb _ (nth_error_In l i Hn)). simpl.
        now destruct s. }
      rewrite Hc, (IH (S i) (emit (EvReset cb (JObj (value s))) s) Hl).
      simpl. now rewrite <- app_assoc.
    + apply nth_error_None in Hn. rewrite (IH (S i) s Hl).
      rewrite !skipn_all2 by lia. now rewrite !firstn_nil.
Qed.

(** X12: a [reset] callback that unregisters itself makes the loop
    skip its successor.  If the first callback of the [reset] list
    calls [off("reset")] on itself and the others leave the registry
    alone, the loop calls the first callback, skips the one registered
    right after it, and calls the remaining ones. *)
Theorem reset_listener_removing_itself (beh : Behaviour) (s : Store)
    (cb1 : Listener) (rest : list Listener)
    (Hlist : Reg.list_of "reset" (on_ s) = cb1 :: rest)
    (Hself : forall arg, beh cb1 arg = [ActOff "reset" cb1])
    (Hrest : forall cb arg, In cb rest -> beh cb arg = []) :
  log (fire_reset beh (List.length (Reg.list_of "reset" (on_ s))) 0 s)
  = log s ++ reset_calls (value s) (cb1 :: skipn 1 rest).
Proof.
  rewrite Hlist. simpl. rewrite Hlist. simpl.
  set (s1 := call beh (EvReset cb1 (JObj (value s))) cb1 (JObj (value s)) s).
  assert (H1 : Reg.list_of "reset" (on_ s1) = rest).
  { unfold s1, call. simpl. rewrite Hself. simpl. unfold reg_off.
    rewrite list_of_set_same, Hlist. simpl. now rewrite Nat.eqb_refl. }
  rewrite (fire_reset_quiet beh rest Hrest (List.length rest) 1 s1 H1).
  unfold s1 at 1 2. rewrite call_log. simpl. rewrite <- app_assoc. simpl.
  rewrite firstn_all2; [reflexivity|].
  destruct rest; simpl; [lia|]. unfold skipn. lia.
Qed.

Lemma reset_listener_removing_itself_witness :
  log (fire_reset
         (fun cb _ => if Nat.eqb cb 1 then [ActOff "reset" 1] else [])
         3 0 (on "reset" 3 (on "reset" 2 (on "reset" 1 store_a))))
  = log store_a
    ++ [EvReset 1 (JObj [("a", JNum 1)]); EvReset 3 (JObj [("a", JNum 1)])].
Proof.
  apply (reset_listener_removing_itself
           (fun cb _ => if Nat.eqb cb 1 then [ActOff "reset" 1] else [])
           (on "reset" 3 (on "reset" 2 (on "reset" 1 store_a))) 1 [2; 3]).
  - reflexivity.
  - reflexivity.
  - intros cb arg [<-|[<-|[]]]; reflexivity.
Defined.

(** ** Update and the accessors *)

Lemma update_value_plain beh p showToast saveFile s byName :
  editor s = Some byName ->
  nothing_to_normalize byName (value (patched p s)) ->
  value (snd (update beh p showToast saveFile s)) = value (patched p s).
Proof.
  intros He Hn.
  rewrite (update_shape beh p showToast saveFile s byName He). cbv beta.
  cbn [snd]. fold (toast_flag p showToast).
  destruct (dispatch_same_data beh Before (changed_by p s)
              (Reg.list_of "update" (on_ s)) (patched p s))
    as (_ & _ & V2 & _).
  set (s2 := dispatch beh Before (changed_by p s) _ (patched p s)) in *.
  assert (Hn2 : nothing_to_normalize byName (value s2)) by now rewrite V2.
  destruct (apply_keys_unchanged byName (changed_by p s) s2 Hn2)
    as [(_ & _ & V3 & _) _].
  set (s3 := fold_left (apply_key byName) (changed_by p s) s2) in *.
  match goal with
  | |- context [dispatch beh After ?k ?a ?x] =>
      destruct (dispatch_same_data beh After k a x) as (_ & _ & V6 & _);
      rewrite V6
  end.
  destruct (save_value s3) as (V4 & _).
  destruct saveFile, (toast_flag p showToast); unfold emit; cbn [value];
    congruence.
Qed.

Lemma shortcut_key_read_flat (v : BindingMap) (key : string) :
  forallb (fun kv => match snd kv with JObj _ => false | _ => true end) v
  = true ->
  shortcut_key (Obj.read key v) = JUndef.
Proof.
  intros H. unfold Obj.read. destruct (Obj.lookup key v) as [w|] eqn:L.
  - apply lookup_In in L. rewrite forallb_forall in H.
    specialize (H _ L). simpl in H. destruct w; try reflexivity. discriminate.
  - destruct (Obj.inherited key); reflexivity.
Qed.

Lemma nothing_to_normalize_flat (byName v : BindingMap) :
  forallb (fun kv => match snd kv with JObj _ => false | _ => true end) v
  = true ->
  nothing_to_normalize byName v.
Proof.
  intros H key. rewrite (shortcut_key_read_flat v key H). apply andb_false_r.
Qed.

(** X13: what [get] and [has] answer after [update] with a patch, [has]
    being the [in] test of the source, which also holds of the names an
    object inherits ([toString], [constructor], ...).  On a store with
    an editor recorded, when [applyBindings] finds nothing to rewrite in
    the patched mapping and the patch has no key [__proto__]: [get]
    returns the patch's value for every patch key that [has] held of
    (so for a patch key [toString] too, which the call adds to the
    mapping), and what it returned before for every key the patch does
    not name; a patch key that [has] did not hold of stays absent.  In
    every case [has] answers as before the call. *)
Theorem update_then_get (beh : Behaviour) (m : BindingMap)
    (showToast saveFile : bool) (s : Store) (byName : BindingMap)
    (Heditor : editor s = Some byName)
    (Hplain : nothing_to_normalize byName (value (patched (Fields m) s)))
    (Hproto : ~ In "__proto__" (Obj.keys m)) :
  let s' := snd (update beh (Fields m) showToast saveFile s) in
  (forall key, In key (Obj.keys m) -> has key s = true ->
               get key s' = Obj.get key m)
  /\ (forall key, In key (Obj.keys m) -> has key s = false ->
                  get key s' = JUndef /\ has key s' = false)
  /\ (forall key, ~ In key (Obj.keys m) -> get key s' = get key s)
  /\ (forall key, has key s' = has key s).
Proof.
  intros s'.
  assert (V : value s' = value (patched (Fields m) s))
    by (apply update_value_plain with (byName := byName); assumption).
  assert (Hhas : forall key, has key s' = has key s).
  { intros key. unfold has. rewrite V.
    apply (patch_fold_is_in m (Obj.keys m) key s). }
  split; [|split; [|split]].
  - intros key Hin Hk. unfold get, Obj.read. rewrite V.
    assert (L : Obj.lookup key (value (patched (Fields m) s))
                = Some (Obj.get key m)).
    { apply (patch_fold_written m (Obj.keys m) key Hin s Hk).
      right. intros ->. now apply Hproto. }
    now rewrite L.
  - intros key _ Hk. rewrite <- (Hhas key) in Hk. split; [|exact Hk].
    unfold has, Obj.is_in in Hk. apply orb_false_iff in Hk.
    destruct Hk as [Hown Hinh]. unfold get, Obj.read. rewrite Hinh.
    unfold Obj.has in Hown. now destruct (Obj.lookup key (value s')).
  - intros key Hnin. unfold get, Obj.read. rewrite V.
    assert (L : Obj.lookup key (value (patched (Fields m) s))
                = Obj.lookup key (value s))
      by (apply (patch_fold_untouched m (Obj.keys m) key Hnin s)).
    now rewrite L.
  - exact Hhas.
Qed.

Lemma update_then_get_witness :
  get "a" (snd (update quiet
                  (Fields [("a", JNum 2); ("zzz", JNum 9); ("toString", JNum 5)])
                  true true store_ac)) = JNum 2
  /\ get "toString"
         (snd (update quiet
                 (Fields [("a", JNum 2); ("zzz", JNum 9); ("toString", JNum 5)])
                 true true store_ac)) = JNum 5
  /\ get "c" (snd (update quiet
                     (Fields [("a", JNum 2); ("zzz", JNum 9); ("toString", JNum 5)])
                     true true store_ac)) = JNum 1
  /\ has "zzz" (snd (update quiet
                       (Fields [("a", JNum 2); ("zzz", JNum 9); ("toString", JNum 5)])
                       true true store_ac)) = false.
Proof.
  assert (Hplain : nothing_to_normalize []
                     (value (patched (Fields [("a", JNum 2); ("zzz", JNum 9);
                                              ("toString", JNum 5)])
                                     store_ac)))
    by (apply nothing_to_normalize_flat; reflexivity).
  assert (Hproto : ~ In "__proto__"
                        (Obj.keys [("a", JNum 2); ("zzz", JNum 9);
                                   ("toString", JNum 5)]))
    by (simpl; intros [E|[E|[E|[]]]]; discriminate E).
  destruct (update_then_get quiet
              [("a", JNum 2); ("zzz", JNum 9); ("toString", JNum 5)] true true
              store_ac [] eq_refl Hplain Hproto) as (A & B & C & _).
  split; [|split; [|split]].
  - rewrite A; [reflexivity | simpl; now left | reflexivity].
  - rewrite A; [reflexivity | simpl; right; right; now left | reflexivity].
  - rewrite C; [reflexivity|]. simpl. intros [E|[E|[E|[]]]]; discriminate E.
  - apply B; [simpl; right; now left | reflexivity].
Defined.

(** ** Reset of given keys *)

Lemma reset_keys_untouched (keyBindings : list string) (k : string) :
  ~ In k keyBindings ->
  forall s, Obj.lookup k (value (reset_keys keyBindings s))
            = Obj.lookup k (value s).
Proof.
  unfold reset_keys.
  induction keyBindings as [|k0 ks IH]; intros Hk s; simpl; [reflexivity|].
  rewrite IH by (intros H; apply Hk; now right).
  destruct (negb (Obj.has k0 (defaultKeyBindings s))); [reflexivity|]. simpl.
  apply lookup_set_other. intros ->. apply Hk. now left.
Qed.

Lemma reset_keys_written (keyBindings : list string) (k : string) :
  In k keyBindings ->
  forall s, Obj.has k (defaultKeyBindings s) = true ->
            Obj.lookup k (value (reset_keys keyBindings s))
            = Some (Obj.get k (defaultKeyBindings s)).
Proof.
  induction keyBindings as [|k0 ks IH]; intros Hk s Hd; [contradiction|].
  change (reset_keys (k0 :: ks) s)
    with (reset_keys ks
            (if negb (Obj.has k0 (defaultKeyBindings s)) then s
             else with_value
                    (Obj.set k0 (Obj.get k0 (defaultKeyBindings s)) (value s))
                    (k0 :: shared s) s)).
  destruct (in_dec string_dec k ks) as [Hin|Hnin].
  - rewrite IH; [|exact Hin|].
    + now destruct (negb (Obj.has k0 (defaultKeyBindings s))).
    + now destruct (negb (Obj.has k0 (defaultKeyBindings s))).
  - destruct Hk as [->|Hk]; [|contradiction].
    rewrite reset_keys_untouched by exact Hnin.
    rewrite Hd. simpl. apply lookup_set_same.
Qed.

Lemma reset_keys_unknown (keyBindings : list string) :
  forall s,
    (forall k, In k keyBindings -> Obj.has k (defaultKeyBindings s) = false) ->
    reset_keys keyBindings s = s.
Proof.
  unfold reset_keys.
  induction keyBindings as [|k ks IH]; intros s H; simpl; [reflexivity|].
  rewrite (H k (or_introl eq_refl)). simpl. apply IH.
  intros k' Hk'. apply H. now right.
Qed.

(** X14: scoped reset.  On a store with an editor recorded,
    [reset(k1, ..., kn)] with at least one key, when [applyBindings]
    finds nothing to rewrite afterwards: every given key that the
    defaults have reads as its default, every key not given reads as
    before, and if none of the given keys is a key of the defaults the
    mapping is left as it was. *)
Theorem reset_scoped (beh : Behaviour) (keyBindings : list string)
    (s : Store) (byName : BindingMap)
    (Hgiven : keyBindings <> [])
    (Heditor : editor s = Some byName)
    (Hplain : nothing_to_normalize byName (value (reset_keys keyBindings s))) :
  let s' := snd (reset beh keyBindings s) in
  (forall key, In key keyBindings ->
               Obj.has key (defaultKeyBindings s) = true ->
               get key s' = Obj.get key (defaultKeyBindings s))
  /\ (forall key, ~ In key keyBindings -> get key s' = get key s)
  /\ ((forall key, In key keyBindings ->
                   Obj.has key (defaultKeyBindings s) = false) ->
      value s' = value s).
Proof.
  intros s'.
  assert (V : value s' = value (reset_keys keyBindings s)).
  { unfold s', reset. destruct keyBindings as [|k ks]; [congruence|].
    set (s1 := reset_keys (k :: ks) s) in *.
    assert (E1 : editor s1 = Some byName).
    { destruct (reset_keys_bookkeeping (k :: ks) s) as (_ & E & _).
      unfold s1. congruence. }
    pose proof (update_value_plain beh (Flag false) true true s1 byName E1 Hplain)
      as U.
    rewrite (update_shape beh (Flag false) true true s1 byName E1) in U |- *.
    cbv beta in U |- *. cbn [snd] in U |- *.
    match goal with |- context [fire_reset beh ?n 0 ?x] =>
      destruct (fire_reset_same_data beh n 0 x) as (_ & _ & F & _); rewrite F
    end.
    exact U. }
  unfold get, Obj.read. rewrite V. split; [|split].
  - intros key Hin Hd.
    now rewrite (reset_keys_written keyBindings key Hin s Hd).
  - intros key Hnin.
    now rewrite (reset_keys_untouched keyBindings key Hnin s).
  - intros H. now rewrite reset_keys_unknown.
Qed.

Lemma reset_scoped_witness :
  get "a" (snd (reset quiet ["a"]
                  (snd (update quiet (Fields [("a", JNum 2); ("c", JNum 3)])
                               true true store_ac)))) = JNum 1
  /\ get "c" (snd (reset quiet ["a"]
                     (snd (update quiet (Fields [("a", JNum 2); ("c", JNum 3)])
                                  true true store_ac)))) = JNum 3.
Proof.
  assert (Hgiven : ["a"] <> []) by discriminate.
  assert (Hplain : nothing_to_normalize []
            (value (reset_keys ["a"]
                      (snd (update quiet (Fields [("a", JNum 2); ("c", JNum 3)])
                                   true true store_ac)))))
    by (apply nothing_to_normalize_flat; reflexivity).
  destruct (reset_scoped quiet ["a"]
              (snd (update quiet (Fields [("a", JNum 2); ("c", JNum 3)])
                           true true store_ac)) [] Hgiven eq_refl Hplain)
    as (A & B & _).
  split.
  - rewrite A; [reflexivity | simpl; now left | reflexivity].
  - rewrite B; [reflexivity|]. simpl. intros [E|[]]. discriminate E.
Defined.

(** ** Before initialisation *)

Lemma flat_calls_before v (keys : list string) :
  forall blocks, forallb is_update_call (flat_calls Before v keys blocks) = true.
Proof.
  unfold flat_calls.
  induction keys as [|k keys IH]; intros [|b blocks]; simpl; try reflexivity.
  rewrite forallb_app, IH, andb_true_r. unfold calls_for.
  induction b as [|cb b IHb]; simpl; [reflexivity | exact IHb].
Qed.

(** X15: [update] and [reset] before [init].  While no editor is
    recorded, both throw from [applyBindings]: the in-memory change is
    made (patch applied, or [value] reset to the defaults) and the
    callbacks of the first dispatch loop run, but nothing is written,
    the baseline does not move, and no [update:after] or [reset]
    callback is called. *)
Theorem calls_before_init_throw (beh : Behaviour) (s : Store)
    (Heditor : editor s = None) :
  (forall p showToast saveFile,
      fst (update beh p showToast saveFile s) = Threw
      /\ value (snd (update beh p showToast saveFile s)) = value (patched p s)
      /\ file (snd (update beh p showToast saveFile s)) = file s
      /\ oldKeyBindings (snd (update beh p showToast saveFile s))
         = oldKeyBindings s
      /\ exists evs,
          log (snd (update beh p showToast saveFile s)) = log s ++ evs
          /\ forallb is_update_call evs = true)
  /\ fst (reset beh [] s) = Threw
  /\ value (snd (reset beh [] s)) = defaultKeyBindings s
  /\ file (snd (reset beh [] s)) = file s
  /\ oldKeyBindings (snd (reset beh [] s)) = oldKeyBindings s
  /\ exists evs,
      log (snd (reset beh [] s)) = log s ++ evs
      /\ forallb is_update_call evs = true.
Proof.
  assert (U : forall p showToast saveFile s0,
             editor s0 = None ->
             fst (update beh p showToast saveFile s0) = Threw
             /\ value (snd (update beh p showToast saveFile s0))
                = value (patched p s0)
             /\ file (snd (update beh p showToast saveFile s0)) = file s0
             /\ oldKeyBindings (snd (update beh p showToast saveFile s0))
                = oldKeyBindings s0
             /\ exists evs,
                 log (snd (update beh p showToast saveFile s0)) = log s0 ++ evs
                 /\ forallb is_update_call evs = true).
  { intros p showToast saveFile s0 He.
    destruct (update_order_without_editor beh p showToast saveFile s0 He)
      as (s1 & before & E & _ & L & F & O).
    rewrite E. simpl. split; [reflexivity|].
    split; [|split; [exact F|split; [exact O|]]].
    - revert E. unfold update. fold (patched p s0). fold (changed_by p s0).
      destruct (dispatch_same_data beh Before (changed_by p s0)
                  (Reg.list_of "update" (on_ s0)) (patched p s0))
        as (_ & _ & V & _ & Ed & _).
      destruct (patched_rest p s0) as (_ & _ & _ & Ep & _).
      unfold applyBindings. rewrite Ed, Ep, He. intros E.
      inversion E; subst. exact V.
    - eexists. split; [exact L|]. apply flat_calls_before. }
  split; [intros p showToast saveFile; now apply U|].
  unfold reset.
  destruct (U (Flag false) true true (value_reset s) Heditor)
    as (T & V & F & O & evs & L & Hev).
  destruct (update beh (Flag false) true true (value_reset s)) as [[] s2];
    simpl in T; [discriminate|].
  simpl in *. repeat split; try assumption. now exists evs.
Qed.

Lemma calls_before_init_throw_witness :
  fst (update quiet (Fields [("a", JNum 2)]) true true
              (new_store [("a", JNum 1)] None)) = Threw
  /\ file (snd (update quiet (Fields [("a", JNum 2)]) true true
                       (new_store [("a", JNum 1)] None))) = None
  /\ fst (reset quiet [] (new_store [("a", JNum 1)] None)) = Threw.
Proof.
  destruct (calls_before_init_throw quiet (new_store [("a", JNum 1)] None)
              eq_refl) as (U & R & _).
  destruct (U (Fields [("a", JNum 2)]) true true) as (A & _ & B & _).
  split; [exact A|]. split; [rewrite B; reflexivity | exact R].
Defined.

(** ** Editor synchronisation: the shape of a descriptor *)

Lemma lookup_remove_other (k k' : string) (o : BindingMap) :
  k <> k' -> Obj.lookup k' (Obj.remove k o) = Obj.lookup k' o.
Proof.
  intros Hne. induction o as [|[k0 v0] o IH]; simpl; [reflexivity|].
  destruct (String.eqb_spec k k0) as [->|Hne0]; simpl.
  - destruct (String.eqb_spec k' k0); [congruence | reflexivity].
  - now rewrite IH.
Qed.

Lemma lookup_remove_same (k : string) (o : BindingMap) :
  unique_keys o -> Obj.lookup k (Obj.remove k o) = None.
Proof.
  unfold unique_keys. induction o as [|[k0 v0] o IH]; intros H; simpl;
    [reflexivity|].
  simpl in H. inversion H as [|? ? Hnin Hnd]; subst.
  destruct (String.eqb_spec k k0) as [->|Hne]; simpl.
  - now apply lookup_absent.
  - apply String.eqb_neq in Hne. rewrite Hne. now apply IH.
Qed.

Lemma keys_remove_incl (k x : string) (o : BindingMap) :
  In x (Obj.keys (Obj.remove k o)) -> In x (Obj.keys o).
Proof.
  induction o as [|[k0 v0] o IH]; simpl; [tauto|].
  destruct (String.eqb k k0); simpl; [now right|].
  intros [E|H]; [now left | right; now apply IH].
Qed.

Lemma unique_keys_remove (k : string) (o : BindingMap) :
  unique_keys o -> unique_keys (Obj.remove k o).
Proof.
  unfold unique_keys. induction o as [|[k0 v0] o IH]; intros H; simpl;
    [constructor|].
  simpl in H. inversion H as [|? ? Hnin Hnd]; subst.
  destruct (String.eqb k k0); simpl; [exact Hnd|].
  constructor; [|now apply IH].
  intros Hin. apply Hnin. now apply keys_remove_incl in Hin.
Qed.

Lemma keys_set_absent (k : string) (v : JsVal) (o : BindingMap) :
  Obj.has k o = false -> Obj.keys (Obj.set k v o) = Obj.keys o ++ [k].
Proof.
  unfold Obj.has. induction o as [|[k0 v0] o IH]; simpl; [reflexivity|].
  destruct (String.eqb k k0); [discriminate|]. simpl.
  intros H. now rewrite IH.
Qed.

Lemma unique_keys_set (k : string) (v : JsVal) (o : BindingMap) :
  unique_keys o -> unique_keys (Obj.set k v o).
Proof.
  unfold unique_keys. intros H. destruct (Obj.has k o) eqn:E.
  - now rewrite keys_set.
  - rewrite keys_set_absent by exact E.
    apply NoDup_app; [exact H | repeat constructor; simpl; tauto |].
    intros x Hx [<-|[]]. apply has_In_keys in Hx. congruence.
Qed.

Lemma get_absent (k : string) (o : BindingMap) :
  Obj.lookup k o = None -> Obj.get k o = JUndef.
Proof. unfold Obj.get. now intros ->. Qed.

(** X16: the rewriting of a descriptor by [applyBindings].  For a
    well-formed descriptor object, [shortcut.bindKey = {win:
    shortcut.key}; delete shortcut.key] yields a well-formed object
    without a [key] property, whose [bindKey] is [{win: <the old
    key>}], and whose other properties are as before. *)
Theorem normalize_shape (fs : BindingMap) (Hfs : unique_keys fs) :
  exists fs',
    normalize (JObj fs) = JObj fs'
    /\ unique_keys fs'
    /\ Obj.lookup "key" fs' = None
    /\ Obj.lookup "bindKey" fs' = Some (JObj [("win", Obj.get "key" fs)])
    /\ shortcut_key (JObj fs') = JUndef
    /\ forall k, k <> "key" -> k <> "bindKey" ->
                 Obj.lookup k fs' = Obj.lookup k fs.
Proof.
  eexists. split; [reflexivity|].
  assert (U : unique_keys (Obj.set "bindKey"
                             (JObj [("win", Obj.get "key" fs)]) fs))
    by now apply unique_keys_set.
  assert (K : Obj.lookup "key"
                (Obj.remove "key"
                   (Obj.set "bindKey" (JObj [("win", Obj.get "key" fs)]) fs))
              = None) by now apply lookup_remove_same.
  split; [now apply unique_keys_remove|]. split; [exact K|]. split; [|split].
  - rewrite lookup_remove_other by discriminate. apply lookup_set_same.
  - apply (get_absent "key"). exact K.
  - intros k Hk Hb. rewrite lookup_remove_other by congruence.
    apply lookup_set_other. congruence.
Qed.

Lemma normalize_shape_witness :
  exists fs',
    normalize (JObj [("key", JStr "Ctrl-S"); ("description", JStr "Save")])
    = JObj fs'
    /\ unique_keys fs'
    /\ Obj.lookup "key" fs' = None
    /\ Obj.lookup "bindKey" fs'
       = Some (JObj [("win", Obj.get "key" [("key", JStr "Ctrl-S");
                                            ("description", JStr "Save")])])
    /\ shortcut_key (JObj fs') = JUndef
    /\ forall k, k <> "key" -> k <> "bindKey" ->
                 Obj.lookup k fs'
                 = Obj.lookup k [("key", JStr "Ctrl-S");
                                 ("description", JStr "Save")].
Proof.
  apply normalize_shape.
  repeat constructor; simpl; intuition discriminate.
Defined.

(** ** Editor synchronisation: applying twice *)

Lemma normalize_settles (sc : JsVal) :
  (forall fs, sc = JObj fs -> unique_keys fs) ->
  truthy (shortcut_key sc) = true ->
  truthy (shortcut_key (normalize sc)) = false
  /\ forall fs', normalize sc = JObj fs' -> unique_keys fs'.
Proof.
  intros Hwf Ht. destruct sc as [| | | | |fs]; try discriminate Ht.
  specialize (Hwf fs eq_refl). split.
  - simpl. rewrite (get_absent "key"); [reflexivity|].
    apply lookup_remove_same. now apply unique_keys_set.
  - intros fs' E. simpl in E. inversion E; subst.
    apply unique_keys_remove. now apply unique_keys_set.
Qed.

Lemma apply_key_lookup_other byName s k k' :
  k <> k' ->
  Obj.lookup k' (value (apply_key byName s k)) = Obj.lookup k' (value s).
Proof.
  intros Hne. rewrite apply_key_value.
  destruct (truthy (Obj.read k byName) && truthy (Obj.read k (value s))
            && truthy (shortcut_key (Obj.read k (value s)))); [|reflexivity].
  now rewrite lookup_modify_other.
Qed.

Lemma apply_key_get_other byName s k k' :
  k <> k' -> Obj.get k' (value (apply_key byName s k)) = Obj.get k' (value s).
Proof.
  intros Hne. unfold Obj.get. now rewrite apply_key_lookup_other.
Qed.

Lemma apply_key_read_other byName s k k' :
  k <> k' -> Obj.read k' (value (apply_key byName s k)) = Obj.read k' (value s).
Proof.
  intros Hne. unfold Obj.read. now rewrite apply_key_lookup_other.
Qed.

(** A descriptor with a [key] field is an own property. *)
Lemma shortcut_key_own (k : string) (v : BindingMap) :
  truthy (shortcut_key (Obj.read k v)) = true ->
  exists w, Obj.lookup k v = Some w.
Proof.
  unfold Obj.read. destruct (Obj.lookup k v) as [w|]; [now exists w|].
  destruct (Obj.inherited k); discriminate.
Qed.

Lemma apply_key_lookup_same byName s k :
  truthy (Obj.read k byName) && truthy (Obj.read k (value s))
  && truthy (shortcut_key (Obj.read k (value s))) = true ->
  exists w, Obj.lookup k (value s) = Some w
            /\ Obj.lookup k (value (apply_key byName s k)) = Some (normalize w).
Proof.
  intros H. rewrite apply_key_value, H.
  apply andb_true_iff in H. destruct H as [_ H].
  destruct (shortcut_key_own k (value s) H) as [w L].
  exists w. split; [exact L|]. now rewrite lookup_modify_same, L.
Qed.

Lemma apply_key_get_same byName s k :
  truthy (Obj.read k byName) && truthy (Obj.read k (value s))
  && truthy (shortcut_key (Obj.read k (value s))) = true ->
  Obj.get k (value (apply_key byName s k)) = normalize (Obj.get k (value s)).
Proof.
  intros H. destruct (apply_key_lookup_same byName s k H) as (w & L & L').
  unfold Obj.get. now rewrite L, L'.
Qed.

Lemma apply_key_settles byName s k :
  well_formed_descriptors (value s) ->
  well_formed_descriptors (value (apply_key byName s k))
  /\ settled byName (value (apply_key byName s k)) k
  /\ forall k', settled byName (value s) k' ->
                settled byName (value (apply_key byName s k)) k'.
Proof.
  intros Hwf.
  destruct (truthy (Obj.read k byName) && truthy (Obj.read k (value s))
            && truthy (shortcut_key (Obj.read k (value s)))) eqn:C.
  - pose proof (apply_key_get_same byName s k C) as G.
    destruct (apply_key_lookup_same byName s k C) as (w & L & L').
    assert (Gw : Obj.get k (value s) = w) by (unfold Obj.get; now rewrite L).
    assert (Ht : truthy (shortcut_key (Obj.get k (value s))) = true).
    { apply andb_true_iff in C. destruct C as [_ C].
      unfold Obj.read in C. rewrite L in C. now rewrite Gw. }
    destruct (normalize_settles (Obj.get k (value s)) (Hwf k) Ht) as [N1 N2].
    assert (Sk : settled byName (value (apply_key byName s k)) k).
    { unfold settled, Obj.read at 2 3. rewrite L', <- Gw, N1.
      apply andb_false_r. }
    split; [|split; [exact Sk|]].
    + intros k' fs E. destruct (string_dec k k') as [<-|Hne].
      * rewrite G in E. now apply N2.
      * rewrite apply_key_get_other in E by exact Hne. now apply (Hwf k').
    + intros k' S. destruct (string_dec k k') as [<-|Hne]; [exact Sk|].
      unfold settled. now rewrite apply_key_read_other.
  - assert (V : value (apply_key byName s k) = value s)
      by (rewrite apply_key_value; now rewrite C).
    rewrite V. split; [exact Hwf|]. split; [exact C | auto].
Qed.

Lemma apply_keys_settle byName (keys : list string) :
  forall s,
    well_formed_descriptors (value s) ->
    well_formed_descriptors (value (fold_left (apply_key byName) keys s))
    /\ (forall k, In k keys \/ settled byName (value s) k ->
                  settled byName (value (fold_left (apply_key byName) keys s)) k).
Proof.
  induction keys as [|k0 keys IH]; intros s Hwf; simpl.
  - split; [exact Hwf|]. intros k [[]|S]. exact S.
  - destruct (apply_key_settles byName s k0 Hwf) as (W1 & S1 & P1).
    destruct (IH (apply_key byName s k0) W1) as [W2 S2].
    split; [exact W2|]. intros k [[<-|Hin]|S]; apply S2; auto.
Qed.

(** X17: [applyBindings] settles the descriptors it is given.  With an
    editor recorded and well-formed descriptors, once [applyBindings]
    has run for some keys, running it again for any of these keys
    leaves [value] as it is: a descriptor is rewritten at most once. *)
Theorem applyBindings_twice (keys again : list string) (s : Store)
    (byName : BindingMap)
    (Heditor : editor s = Some byName)
    (Hwf : well_formed_descriptors (value s))
    (Hsub : incl again keys) :
  fst (applyBindings again (snd (applyBindings keys s))) = Ok
  /\ value (snd (applyBindings again (snd (applyBindings keys s))))
     = value (snd (applyBindings keys s)).
Proof.
  unfold applyBindings at 2 4 5. rewrite Heditor. cbn [snd].
  set (s1 := fold_left (apply_key byName) keys s).
  assert (E1 : editor s1 = Some byName).
  { destruct (apply_keys_frame byName keys s) as (_ & _ & E & _).
    unfold s1. congruence. }
  unfold applyBindings. rewrite E1. cbn [fst snd]. split; [reflexivity|].
  apply apply_keys_settled_value. intros k Hin.
  destruct (apply_keys_settle byName keys s Hwf) as [_ S].
  apply S. left. now apply Hsub.
Qed.

Lemma applyBindings_twice_witness :
  value (snd (applyBindings ["save"]
                (snd (applyBindings ["save"]
                        (snd (reset quiet ["save"] store_save))))))
  = value (snd (applyBindings ["save"] (snd (reset quiet ["save"] store_save)))).
Proof.
  assert (Hwf : well_formed_descriptors
                  (value (snd (reset quiet ["save"] store_save)))).
  { assert (V : value (snd (reset quiet ["save"] store_save))
                = [("save", JObj [("bindKey", JObj [("win", JStr "Ctrl-S")])])])
      by (vm_compute; reflexivity).
    rewrite V. intros k fs. unfold Obj.get. simpl.
    destruct (String.eqb k "save"); intros E; inversion E; subst.
    repeat constructor; simpl; tauto. }
  apply (applyBindings_twice ["save"] ["save"]
           (snd (reset quiet ["save"] store_save))
           [("save", JObj [("name", JStr "save")])] eq_refl Hwf).
  intros x Hx. exact Hx.
Defined.

(** ** Editor synchronisation: the registered record *)

Lemma assign_fields_lookup (l : BindingMap) :
  unique_keys l ->
  forall t k,
    Obj.lookup k (fold_left (fun t kv => Obj.set (fst kv) (snd kv) t) l t)
    = match Obj.lookup k l with
      | Some v => Some v
      | None => Obj.lookup k t
      end.
Proof.
  unfold unique_keys. induction l as [|[k0 v0] l IH]; intros H t k; simpl;
    [reflexivity|].
  simpl in H. inversion H as [|? ? Hnin Hnd]; subst.
  rewrite (IH Hnd). destruct (String.eqb_spec k k0) as [->|Hne].
  - rewrite (lookup_absent k0 l Hnin). apply lookup_set_same.
  - destruct (Obj.lookup k l); [reflexivity|].
    apply lookup_set_other. congruence.
Qed.

Lemma assign_fields_unique (l : BindingMap) :
  forall t, unique_keys t ->
            unique_keys (fold_left (fun t kv => Obj.set (fst kv) (snd kv) t) l t).
Proof.
  induction l as [|[k0 v0] l IH]; intros t H; simpl; [exact H|].
  apply IH. now apply unique_keys_set.
Qed.

(** X18: the record that [applyBindings] registers.  For a command
    object and a descriptor object, both well formed,
    [Object.assign({}, command, shortcut)] is a well-formed object in
    which every property of the descriptor has the descriptor's value
    and every other property has the command's value. *)
Theorem merged_command_fields (command shortcut : BindingMap)
    (Hc : unique_keys command) (Hs : unique_keys shortcut) :
  unique_keys (assign (assign [] (JObj command)) (JObj shortcut))
  /\ forall k,
      Obj.lookup k (assign (assign [] (JObj command)) (JObj shortcut))
      = match Obj.lookup k shortcut with
        | Some v => Some v
        | None => Obj.lookup k command
        end.
Proof.
  unfold assign. simpl. split.
  - apply assign_fields_unique. apply assign_fields_unique. constructor.
  - intros k. rewrite (assign_fields_lookup shortcut Hs).
    destruct (Obj.lookup k shortcut); [reflexivity|].
    rewrite (assign_fields_lookup command Hc).
    now destruct (Obj.lookup k command).
Qed.

Lemma merged_command_fields_witness :
  Obj.lookup "bindKey"
    (assign (assign [] (JObj [("name", JStr "save");
                              ("bindKey", JObj [("win", JStr "Ctrl-S")])]))
            (JObj [("bindKey", JObj [("win", JStr "Ctrl-X")])]))
  = Some (JObj [("win", JStr "Ctrl-X")]).
Proof.
  assert (Hc : unique_keys [("name", JStr "save");
                            ("bindKey", JObj [("win", JStr "Ctrl-S")])]).
  { repeat constructor; simpl; intuition discriminate. }
  assert (Hs : unique_keys [("bindKey", JObj [("win", JStr "Ctrl-X")])]).
  { repeat constructor; simpl; tauto. }
  rewrite (proj2 (merged_command_fields _ _ Hc Hs) "bindKey"). reflexivity.
Defined.

(** ** Persistence: what is written *)

Lemma json_idempotent (v : JsVal) : json (json v) = json v.
Proof.
  induction v using JsVal_nested_ind; try reflexivity.
  simpl. f_equal.
  induction H as [|[k x] xs Hx _ IH]; [reflexivity|].
  simpl in Hx. destruct x; simpl; try (now rewrite IH).
  simpl in Hx. rewrite IH. inversion Hx as [E]. now rewrite !E.
Qed.

Lemma json_defined (v : JsVal) : no_undefined_fields v = true -> json v = v.
Proof.
  induction v using JsVal_nested_ind; try reflexivity.
  simpl. intros D. f_equal.
  induction H as [|[k x] xs Hx _ IH]; [reflexivity|].
  simpl in Hx. destruct x; try discriminate D; simpl in D |- *;
    try (now rewrite IH).
  apply andb_true_iff in D. destruct D as [D1 D2].
  rewrite IH by exact D2. f_equal. f_equal. now apply Hx.
Qed.

Lemma json_no_undefined (v : JsVal) : no_undefined_fields (json v) = true.
Proof.
  induction v using JsVal_nested_ind; try reflexivity.
  simpl.
  induction H as [|[k x] xs Hx _ IH]; [reflexivity|].
  simpl in Hx. destruct x; simpl; try exact IH.
  simpl in Hx. now rewrite Hx, IH.
Qed.

(** X19: what [#save] leaves behind.  After a save the file holds the
    mapping as JSON renders it (properties holding [undefined] left
    out, at every depth), which is the mapping itself when it holds no
    [undefined]; the baseline is [value], so no key counts as changed;
    the file is created only when it was absent, so that a second save
    only writes; and reading the document back and writing it again
    gives the same document. *)
Theorem save_leaves (s : Store) :
  file (save s) = Some (json (JObj (value s)))
  /\ no_undefined_fields (json (JObj (value s))) = true
  /\ json (json (JObj (value s))) = json (JObj (value s))
  /\ (no_undefined_fields (JObj (value s)) = true ->
      file (save s) = Some (JObj (value s)))
  /\ oldKeyBindings (save s) = Some (value s)
  /\ value (save s) = value s
  /\ getChangedKeys (oldKeyBindings (save s)) (value (save s)) = []
  /\ log (save s)
     = log s
       ++ (match file s with None => [EvCreateFile] | Some _ => [] end)
       ++ [EvWriteFile (json (JObj (value s)))]
  /\ log (save (save s))
     = log (save s) ++ [EvWriteFile (json (JObj (value s)))].
Proof.
  destruct (save_value s) as (V & _ & O & F).
  split; [exact F|]. split; [apply json_no_undefined|].
  split; [apply json_idempotent|]. split.
  - intros D. rewrite F. now rewrite (json_defined (JObj (value s)) D).
  - split; [exact O|]. split; [exact V|]. split.
    + rewrite O, V. apply getChangedKeys_same.
    + split.
      * unfold save. destruct (file s); simpl; [reflexivity|].
        now rewrite <- app_assoc.
      * unfold save at 1. rewrite F, V. reflexivity.
Qed.

Lemma save_leaves_witness :
  file (save store_a_pending) = Some (JObj [("a", JNum 2)])
  /\ getChangedKeys (oldKeyBindings (save store_a_pending))
                    (value (save store_a_pending)) = [].
Proof.
  destruct (save_leaves store_a_pending) as (_ & _ & _ & F & _ & _ & C & _).
  split; [|exact C]. rewrite F; reflexivity.
Defined.

(** ** Initialised stores *)

Lemma init_editor beh ed s :
  initialized s = false -> editor (snd (init beh ed s)) = Some ed.
Proof.
  intros I. unfold init. rewrite I. cbv zeta.
  change (file (with_editor ed s)) with (file s).
  destruct (file s) as [doc|] eqn:F.
  - destruct (truthy doc); [simpl|reflexivity].
    destruct (heal (defaultKeyBindings s) doc); [|reflexivity].
    now destruct (reset_bookkeeping beh [] (with_editor ed s)) as [_ ->].
  - unfold save. simpl. rewrite F. reflexivity.
Qed.

Lemma reachable_editor beh list_js s :
  reachable beh list_js s ->
  (initialized s = true <-> exists byName, editor s = Some byName).
Proof.
  induction 1 as [f|ed s _ IH|p t sv s _ IH|ks s _ IH|ev cb s _ IH|ev cb s _ IH].
  - simpl. split; [discriminate | intros [b E]; discriminate E].
  - destruct (initialized s) eqn:I.
    + unfold init. rewrite I. simpl. rewrite I. exact IH.
    + rewrite init_initialized, (init_editor beh ed s I).
      split; [now exists ed | reflexivity].
  - destruct (update_bookkeeping beh p t sv s) as [-> ->]. exact IH.
  - destruct (reset_bookkeeping beh ks s) as [-> ->]. exact IH.
  - exact IH.
  - exact IH.
Qed.

(** X20: [update] and [reset] work exactly on initialised stores.  In
    every store that a program can reach through the public
    operations, an editor is recorded exactly when [init] has been
    called; so [update] and [reset] return normally if the store is
    initialised, and throw if it is not. *)
Theorem initialised_iff_usable (beh : Behaviour) (list_js : BindingMap)
    (s : Store) (Hreach : reachable beh list_js s) :
  (initialized s = true <-> exists byName, editor s = Some byName)
  /\ (forall p showToast saveFile,
        fst (update beh p showToast saveFile s)
        = if initialized s then Ok else Threw)
  /\ (forall keyBindings,
        fst (reset beh keyBindings s) = if initialized s then Ok else Threw).
Proof.
  pose proof (reachable_editor beh list_js s Hreach) as HE.
  split; [exact HE|].
  assert (U : forall p showToast saveFile s0,
             editor s0 = editor s ->
             fst (update beh p showToast saveFile s0)
             = if initialized s then Ok else Threw).
  { intros p showToast saveFile s0 E0. destruct (initialized s).
    - destruct (proj1 HE eq_refl) as [byName E].
      rewrite (update_shape beh p showToast saveFile s0 byName); [reflexivity|].
      congruence.
    - destruct (editor s) as [b|] eqn:E.
      + assert (X : false = true) by (apply HE; now exists b). discriminate X.
      + destruct (update_order_without_editor beh p showToast saveFile s0 E0)
          as (s1 & before & -> & _). reflexivity. }
  split.
  - intros p showToast saveFile. now apply U.
  - intros keyBindings. unfold reset.
    set (s1 := match keyBindings with
               | [] => value_reset s
               | _ => reset_keys keyBindings s
               end).
    assert (E1 : editor s1 = editor s).
    { unfold s1. destruct keyBindings as [|k ks]; [reflexivity|].
      now destruct (reset_keys_bookkeeping (k :: ks) s) as (_ & E & _). }
    pose proof (U (Flag false) true true s1 E1) as T.
    destruct (update beh (Flag false) true true s1) as [[] s2]; exact T.
Qed.

Lemma initialised_iff_usable_witness :
  fst (update quiet (Fields [("a", JNum 2)]) true true store_a) = Ok
  /\ fst (reset quiet [] (new_store [("a", JNum 1)] None)) = Threw.
Proof.
  assert (R1 : reachable quiet [("a", JNum 1)] store_a)
    by (apply reach_init; apply reach_new).
  assert (R0 : reachable quiet [("a", JNum 1)] (new_store [("a", JNum 1)] None))
    by apply reach_new.
  destruct (initialised_iff_usable quiet [("a", JNum 1)] store_a R1)
    as (_ & U & _).
  destruct (initialised_iff_usable quiet [("a", JNum 1)]
              (new_store [("a", JNum 1)] None) R0) as (_ & _ & R).
  split; [apply (U (Fields [("a", JNum 2)]) true true) | apply (R [])].
Defined.

(** ** Update: key-specific callbacks *)

Lemma dispatch_quiet_in beh ph (keys : list string) :
  all_quiet beh ->
  forall acc s k cb,
    In k keys -> In cb acc ->
    In (phase_event ph k cb (Obj.read k (value s)))
       (log (dispatch beh ph keys acc s)).
Proof.
  intros Hq acc s k cb Hk Hcb.
  destruct (dispatch_log beh ph keys acc s) as (blocks & Hlen & -> & Hpre).
  apply in_or_app. right. now apply (flat_calls_generic ph _ _ blocks acc).
Qed.

Lemma dispatch_log_extends beh ph (keys : list string) :
  forall acc s e, In e (log s) -> In e (log (dispatch beh ph keys acc s)).
Proof.
  intros acc s e H.
  destruct (dispatch_log beh ph keys acc s) as (blocks & _ & -> & _).
  apply in_or_app. now left.
Qed.

Lemma dispatch_quiet_specific beh ph (keys : list string) :
  all_quiet beh ->
  forall acc s k1 rest1 cb,
    keys = k1 :: rest1 ->
    In cb (Reg.list_of (event_name ph k1) (on_ s)) ->
    forall k, In k keys ->
              In (phase_event ph k cb (Obj.read k (value s)))
                 (log (dispatch beh ph keys acc s)).
Proof.
  intros Hq acc s k1 rest1 cb -> Hcb k Hk. simpl.
  set (acc' := match Reg.lookup (event_name ph k1) (on_ s) with
               | Some listeners => acc ++ listeners
               | None => acc
               end).
  assert (Hin : In cb acc').
  { unfold acc'. unfold Reg.list_of in Hcb.
    destruct (Reg.lookup (event_name ph k1) (on_ s)); [|contradiction].
    apply in_or_app. now right. }
  destruct (invoke_all_spec beh ph k1 acc' s) as [(_ & _ & V & _) L].
  destruct Hk as [<-|Hk].
  - apply dispatch_log_extends. rewrite L. apply in_or_app. right.
    unfold calls_for.
    now apply (in_map (fun cb0 => phase_event ph k1 cb0 (Obj.read k1 (value s)))).
  - rewrite <- V. now apply dispatch_quiet_in.
Qed.

(** X21: reach of a key-specific callback within one dispatch loop.
    With callbacks that leave the registry alone, a callback
    registered for [update:<k1>] (or [update:<k1>:after]) is called for
    [k1] when it is a changed key, and also for every changed key that
    the loop visits after [k1], each time with the visited key's
    value. *)
Theorem dispatch_specific_reach (beh : Behaviour) (ph : Phase)
    (before : list string) (k1 : string) (later : list string)
    (acc : list Listener) (s : Store) (cb : Listener)
    (Hquiet : all_quiet beh)
    (Hcb : In cb (Reg.list_of (event_name ph k1) (on_ s))) :
  forall k, In k (k1 :: later) ->
            In (phase_event ph k cb (Obj.read k (value s)))
               (log (dispatch beh ph (before ++ k1 :: later) acc s)).
Proof.
  revert acc s Hcb. induction before as [|k0 before IH]; intros acc s Hcb k Hk.
  - simpl app. now apply (dispatch_quiet_specific beh ph (k1 :: later) Hquiet
                            acc s k1 later cb eq_refl Hcb).
  - simpl.
    match goal with |- context [invoke_all beh ph k0 ?a s] => set (acc' := a) end.
    destruct (invoke_all_spec beh ph k0 acc' s) as [(_ & _ & V & _) _].
    rewrite <- V. apply IH; [|exact Hk].
    now rewrite invoke_all_quiet.
Qed.

Lemma dispatch_specific_reach_witness :
  In (EvUpdate "c" 2 (JNum 1))
     (log (dispatch quiet Before ["a"; "c"] [1] store_ac)).
Proof.
  assert (Hq : all_quiet quiet) by (intros cb arg; reflexivity).
  apply (dispatch_specific_reach quiet Before [] "a" ["c"] [1] store_ac 2 Hq).
  - simpl. now left.
  - simpl. right. now left.
Defined.

(** ** Reset of a key and the defaults *)

Lemma apply_key_defaults byName s k :
  defaultKeyBindings (apply_key byName s k)
  = if truthy (Obj.read k byName) && truthy (Obj.read k (value s))
       && truthy (shortcut_key (Obj.read k (value s))) && is_shared k s
    then Obj.modify k normalize (defaultKeyBindings s)
    else defaultKeyBindings s.
Proof.
  unfold apply_key.
  destruct (truthy (Obj.read k byName)); cbn [negb orb andb]; [|reflexivity].
  destruct (truthy (Obj.read k (value s))); cbn [negb orb andb]; [|reflexivity].
  destruct (truthy (shortcut_key (Obj.read k (value s)))); [|reflexivity].
  simpl. destruct (is_shared k s); reflexivity.
Qed.

Lemma apply_key_shared byName s k k' :
  is_shared k' (apply_key byName s k) = is_shared k' s.
Proof.
  unfold apply_key.
  destruct (negb (truthy (Obj.read k byName))
            || negb (truthy (Obj.read k (value s)))); [reflexivity|].
  destruct (truthy (shortcut_key (Obj.read k (value s)))); [|reflexivity].
  destruct (is_shared k s); reflexivity.
Qed.

Lemma get_modify_same (k : string) (f : JsVal -> JsVal) (o : BindingMap) v :
  Obj.get k o = v -> v <> JUndef -> Obj.get k (Obj.modify k f o) = f v.
Proof.
  unfold Obj.get. rewrite lookup_modify_same.
  destruct (Obj.lookup k o); simpl; congruence.
Qed.

Lemma get_modify_other (k k' : string) (f : JsVal -> JsVal) (o : BindingMap) :
  k <> k' -> Obj.get k' (Obj.modify k f o) = Obj.get k' o.
Proof. intros H. unfold Obj.get. now rewrite lookup_modify_other. Qed.

Lemma read_of_get (k : string) (o : BindingMap) (v : JsVal) :
  Obj.get k o = v -> v <> JUndef -> Obj.read k o = Data v.
Proof.
  unfold Obj.get, Obj.read. destruct (Obj.lookup k o); congruence.
Qed.

Section Shared_descriptor.

Variable byName : BindingMap.
Variable key : string.
Variable fs : BindingMap.
Hypothesis Hfs : unique_keys fs.
Hypothesis Hkey : truthy (Obj.get "key" fs) = true.
Hypothesis Hcmd : truthy (Obj.read key byName) = true.

Let rewritten (s : Store) : Prop :=
  Obj.get key (value s) = normalize (JObj fs)
  /\ Obj.get key (defaultKeyBindings s) = normalize (JObj fs).

Let pristine (s : Store) : Prop :=
  Obj.get key (value s) = JObj fs
  /\ Obj.get key (defaultKeyBindings s) = JObj fs
  /\ is_shared key s = true.

Lemma normalized_settled : truthy (shortcut_key (normalize (JObj fs))) = false.
Proof.
  simpl. rewrite (get_absent "key"); [reflexivity|].
  apply lookup_remove_same. now apply unique_keys_set.
Qed.

Lemma apply_key_rewritten s k : rewritten s -> rewritten (apply_key byName s k).
Proof.
  intros [V D]. unfold rewritten.
  rewrite apply_key_value, apply_key_defaults.
  destruct (string_dec k key) as [->|Hne].
  - rewrite (read_of_get key (value s) _ V) by discriminate.
    rewrite normalized_settled, !andb_false_r. now split.
  - destruct (truthy (Obj.read k byName) && truthy (Obj.read k (value s))
              && truthy (shortcut_key (Obj.read k (value s)))); simpl;
      [|now split].
    rewrite get_modify_other by exact Hne.
    destruct (is_shared k s); [rewrite get_modify_other by exact Hne|];
      now split.
Qed.

Lemma apply_keys_rewritten (keys : list string) :
  forall s, rewritten s -> rewritten (fold_left (apply_key byName) keys s).
Proof.
  induction keys as [|k keys IH]; intros s H; simpl; [exact H|].
  apply IH. now apply apply_key_rewritten.
Qed.

Lemma apply_key_pristine s k :
  pristine s ->
  if String.eqb k key then rewritten (apply_key byName s k)
  else pristine (apply_key byName s k).
Proof.
  intros (V & D & S).
  destruct (String.eqb_spec k key) as [->|Hne].
  - assert (C : truthy (Obj.read key byName) && truthy (JObj fs)
                && truthy (shortcut_key (JObj fs)) = true)
      by (rewrite Hcmd; simpl; exact Hkey).
    unfold rewritten. rewrite apply_key_value, apply_key_defaults.
    rewrite (read_of_get key (value s) _ V) by discriminate.
    rewrite S, C. split.
    + apply get_modify_same; [exact V | discriminate].
    + apply get_modify_same; [exact D | discriminate].
  - unfold pristine.
    rewrite apply_key_value, apply_key_defaults, apply_key_shared.
    destruct (truthy (Obj.read k byName) && truthy (Obj.read k (value s))
              && truthy (shortcut_key (Obj.read k (value s)))); simpl;
      [|now repeat split].
    rewrite get_modify_other by exact Hne.
    destruct (is_shared k s); [rewrite get_modify_other by exact Hne|];
      now repeat split.
Qed.

Lemma apply_keys_pristine (keys : list string) :
  In key keys ->
  forall s, pristine s -> rewritten (fold_left (apply_key byName) keys s).
Proof.
  induction keys as [|k keys IH]; intros Hin s H; [contradiction|]. simpl.
  pose proof (apply_key_pristine s k H) as Hs.
  destruct (String.eqb_spec k key) as [->|Hne].
  - now apply apply_keys_rewritten.
  - apply IH; [|exact Hs]. destruct Hin as [E|Hin]; [congruence | exact Hin].
Qed.

End Shared_descriptor.

(** X22: [reset(key)] shares the default descriptor with [value], so
    its rewriting reaches the defaults.  On a store with an editor
    recorded, let [key] have a well-formed default descriptor with a
    truthy [key] field and a command of its name, and let the [update]
    inside [reset(key)] find [key] among the changed keys.  Then after
    [reset(key)] the descriptor is rewritten ([key] replaced by
    [bindKey.win]) not only in [value] but also in the defaults
    themselves. *)
Theorem reset_key_rewrites_defaults (beh : Behaviour) (key : string)
    (s : Store) (byName fs : BindingMap)
    (Heditor : editor s = Some byName)
    (Hdefault : Obj.get key (defaultKeyBindings s) = JObj fs)
    (Hfs : unique_keys fs)
    (Hkey : truthy (Obj.get "key" fs) = true)
    (Hcmd : truthy (Obj.read key byName) = true)
    (Hchanged : In key (changed_by (Flag false) (reset_keys [key] s))) :
  fst (reset beh [key] s) = Ok
  /\ Obj.get key (value (snd (reset beh [key] s))) = normalize (JObj fs)
  /\ Obj.get key (defaultKeyBindings (snd (reset beh [key] s)))
     = normalize (JObj fs)
  /\ normalize (JObj fs) <> JObj fs.
Proof.
  assert (Hhas : Obj.has key (defaultKeyBindings s) = true).
  { unfold Obj.has, Obj.get in *.
    destruct (Obj.lookup key (defaultKeyBindings s)); [reflexivity|discriminate]. }
  unfold reset.
  remember (reset_keys [key] s) as s1 eqn:R.
  assert (E1 : s1 = with_value (Obj.set key (JObj fs) (value s))
                               (key :: shared s) s).
  { rewrite R. unfold reset_keys. simpl. rewrite Hhas, Hdefault. reflexivity. }
  clear R.
  assert (Ed1 : editor s1 = Some byName) by (rewrite E1; exact Heditor).
  assert (D1 : defaultKeyBindings s1 = defaultKeyBindings s)
    by (rewrite E1; reflexivity).
  assert (S1 : is_shared key s1 = true).
  { rewrite E1. unfold is_shared. simpl. now rewrite String.eqb_refl. }
  assert (V1 : Obj.get key (value s1) = JObj fs).
  { rewrite E1. simpl. unfold Obj.get. now rewrite lookup_set_same. }
  clear E1.
  rewrite (update_shape beh (Flag false) true true s1 byName Ed1). cbv beta.
  cbn [fst snd].
  set (changed := changed_by (Flag false) s1) in *.
  change (patched (Flag false) s1) with s1.
  destruct (dispatch_same_data beh Before changed
              (Reg.list_of "update" (on_ s1)) s1)
    as (_ & D2 & V2 & _ & _ & S2 & _).
  set (s2 := dispatch beh Before changed _ s1) in *.
  assert (P2 : Obj.get key (value s2) = JObj fs
               /\ Obj.get key (defaultKeyBindings s2) = JObj fs
               /\ is_shared key s2 = true).
  { rewrite V2, D2, D1. unfold is_shared in *. rewrite S2. auto. }
  destruct (apply_keys_pristine byName key fs Hfs Hkey Hcmd changed Hchanged s2 P2)
    as [V3 D3].
  set (s3 := fold_left (apply_key byName) changed s2) in *.
  destruct (save_value s3) as (V4 & D4 & _).
  match goal with
  | |- context [fire_reset beh ?n 0 ?x] =>
      destruct (fire_reset_same_data beh n 0 x) as (_ & D7 & V7 & _);
      rewrite D7, V7
  end.
  match goal with
  | |- context [dispatch beh After ?k ?a ?x] =>
      destruct (dispatch_same_data beh After k a x) as (_ & D6 & V6 & _);
      rewrite D6, V6
  end.
  rewrite V4, D4. split; [reflexivity|]. split; [exact V3|]. split; [exact D3|].
  intros E. simpl in E. inversion E as [E'].
  assert (L : Obj.lookup "key"
                (Obj.remove "key"
                   (Obj.set "bindKey" (JObj [("win", Obj.get "key" fs)]) fs))
              = None)
    by (apply lookup_remove_same; now apply unique_keys_set).
  rewrite E' in L. unfold Obj.get in Hkey. rewrite L in Hkey. discriminate Hkey.
Qed.

Lemma reset_key_rewrites_defaults_witness :
  Obj.get "save" (defaultKeyBindings store_save)
  = JObj [("key", JStr "Ctrl-S")]
  /\ changed_by (Flag false) (reset_keys ["save"] store_save) = ["save"]
  /\ Obj.get "save" (defaultKeyBindings (snd (reset quiet ["save"] store_save)))
     = JObj [("bindKey", JObj [("win", JStr "Ctrl-S")])].
Proof.
  split; [reflexivity|]. split; [reflexivity|].
  assert (Hfs : unique_keys [("key", JStr "Ctrl-S")])
    by (repeat constructor; simpl; tauto).
  assert (Hchanged : In "save"
                        (changed_by (Flag false) (reset_keys ["save"] store_save)))
    by (vm_compute; now left).
  destruct (reset_key_rewrites_defaults quiet "save" store_save
              [("save", JObj [("name", JStr "save")])]
              [("key", JStr "Ctrl-S")]
              eq_refl eq_refl Hfs eq_refl eq_refl Hchanged)
    as (_ & _ & D & _).
  rewrite D. reflexivity.
Defined.

(** ** Editor synchronisation: keys that are skipped *)

(** X23: [applyBindings] skips what it cannot bind.  With an editor
    recorded, keys for which the editor has no command, or for which
    [value] holds no descriptor (or a falsy one), are passed over: no
    command is registered and the store is unchanged. *)
Theorem applyBindings_skips (keys : list string) (s : Store)
    (byName : BindingMap)
    (Heditor : editor s = Some byName)
    (Hskip : forall k, In k keys ->
                       truthy (Obj.read k byName) = false
                       \/ truthy (Obj.read k (value s)) = false) :
  applyBindings keys s = (Ok, s).
Proof.
  unfold applyBindings. rewrite Heditor. f_equal. clear Heditor.
  induction keys as [|k keys IH]; simpl; [reflexivity|].
  assert (E : apply_key byName s k = s).
  { unfold apply_key.
    destruct (Hskip k (or_introl eq_refl)) as [H|H]; rewrite H; simpl;
      [reflexivity | now rewrite orb_true_r]. }
  rewrite E. apply IH. intros k' Hk'. apply Hskip. now right.
Qed.

Lemma applyBindings_skips_witness :
  applyBindings ["save"; "zzz"]
    (snd (init quiet [("other", JObj [("name", JStr "other")])]
               (new_store [("save", JObj [("key", JStr "Ctrl-S")])] None)))
  = (Ok, snd (init quiet [("other", JObj [("name", JStr "other")])]
                   (new_store [("save", JObj [("key", JStr "Ctrl-S")])] None))).
Proof.
  apply (applyBindings_skips ["save"; "zzz"]
           (snd (init quiet [("other", JObj [("name", JStr "other")])]
                      (new_store [("save", JObj [("key", JStr "Ctrl-S")])] None)))
           [("other", JObj [("name", JStr "other")])] eq_refl).
  intros k [<-|[<-|[]]]; [left | right]; reflexivity.
Defined.
